(** * Raw handling of pasted content: the schema model, the sanitizer,
      the classifiers, the tree filter engine and the orchestrator of
      [blocks/api/raw-handling].

    The JavaScript sources are embedded shallowly.  Schema entries are
    objects that the code shares and assigns to, so they live in an
    explicit store and schemas hold references.  The sanitizer and the
    classifiers work on first-order DOM trees; the filter engine, whose
    filters move nodes about, works on documents whose nodes have an
    identity.  Code that can throw lives in a small error monad.  What
    belongs to the host (HTML parsing and serialization, selectors, the
    DOM calls) is modelled where a claim needs it and is named as such. *)

From Stdlib Require Import Ascii.
From stdpp Require Import base option list strings.


(* ================================================================== *)
(** * Part I: the model                                                *)
(* ================================================================== *)

(** ** Exceptions *)

Inductive exn : Type :=
| TypeError      (* call of a non-function, property read on undefined *)
| SyntaxError    (* malformed selector handed to querySelector *)
| DOMException.  (* NotFoundError / HierarchyRequestError of the DOM *)

Inductive result (A : Type) : Type :=
| Ok (a : A)
| Throw (e : exn).
Arguments Ok {A} a.
Arguments Throw {A} e.

Definition bind {A B : Type} (m : result A) (k : A -> result B) : result B :=
  match m with
  | Ok a => k a
  | Throw e => Throw e
  end.

Notation "x <~ m ;; k" := (bind m (fun x => k))
  (at level 100, m at next level, right associativity).

(** ** Strings *)

Definition is_upper (c : ascii) : bool :=
  let n := nat_of_ascii c in (65 <=? n) && (n <=? 90).

Definition is_lower (c : ascii) : bool :=
  let n := nat_of_ascii c in (97 <=? n) && (n <=? 122).

Definition lower_ascii (c : ascii) : ascii :=
  if is_upper c then ascii_of_nat (nat_of_ascii c + 32) else c.

Definition upper_ascii (c : ascii) : ascii :=
  if is_lower c then ascii_of_nat (nat_of_ascii c - 32) else c.

Fixpoint string_map (f : ascii -> ascii) (s : string) : string :=
  match s with
  | EmptyString => EmptyString
  | String c s' => String (f c) (string_map f s')
  end.

(** [String.prototype.toLowerCase] and [toUpperCase] on code units below
    128 (tag and attribute names). *)
Definition toLowerCase : string -> string := string_map lower_ascii.
Definition toUpperCase : string -> string := string_map upper_ascii.

(** White space of [String.prototype.trim] among the code units below 256:
    TAB, LF, VT, FF, CR, SP and NBSP. *)
Definition is_js_space (c : ascii) : bool :=
  let n := nat_of_ascii c in
  (n =? 9) || (n =? 10) || (n =? 11) || (n =? 12) || (n =? 13)
  || (n =? 32) || (n =? 160).

Fixpoint string_forallb (p : ascii -> bool) (s : string) : bool :=
  match s with
  | EmptyString => true
  | String c s' => p c && string_forallb p s'
  end.

(** [! s.trim()]: the trimmed string is empty. *)
Definition trims_to_empty (s : string) : bool := string_forallb is_js_space s.

(** [s.split( ' ' )]: never the empty list; [''.split(' ')] is [['']]. *)
Fixpoint split_space (s : string) : list string :=
  match s with
  | EmptyString => [EmptyString]
  | String c s' =>
      if Ascii.eqb c " "%char then EmptyString :: split_space s'
      else match split_space s' with
           | [] => [String c EmptyString]
           | w :: ws => String c w :: ws
           end
  end.

(** [a.join( sep )]. *)
Fixpoint join (sep : string) (l : list string) : string :=
  match l with
  | [] => EmptyString
  | [w] => w
  | w :: ws => w +:+ sep +:+ join sep ws
  end.

(** [a.indexOf( x ) !== -1] on an array of strings. *)
Definition includes (l : list string) (x : string) : bool :=
  existsb (fun y => String.eqb y x) l.

(** ** Schemas

    A schema is a JavaScript object from keys (lower-case tag names, or
    the decimal numeral of a node type) to entry objects.  The code
    aliases entries ([omit] copies references, the reducer of
    [getBlockContentSchema] stores [schema[ tag ]] itself in the
    accumulator) and assigns their fields in place, so entries live in a
    store and schemas hold references to them.  A schema lists its own
    properties in [Object.keys] order (the keys that are array indices
    first, in ascending order, then the other keys in the order of their
    creation); a key occurs once. *)

Abbreviation loc := nat.

Abbreviation schema := (list (string * loc)).

Record entry : Type := Entry {
  attributes : option (list string);
  classes : option (list string);
  children : option schema;
  require : option (list string)
}.

(** The object store: entry objects by reference. *)
Abbreviation heap := (list entry).

(** The literal [{}]. *)
Definition empty_entry : entry := Entry None None None None.

(** [s[ k ]] and [s.hasOwnProperty( k )]. *)
Fixpoint own (s : schema) (k : string) : option loc :=
  match s with
  | [] => None
  | (k', l) :: s' => if String.eqb k' k then Some l else own s' k
  end.

Definition hasOwnProperty (s : schema) (k : string) : bool :=
  match own s k with Some _ => true | None => false end.

(** [s[ k ]], dereferenced. *)
Definition get_entry (h : heap) (s : schema) (k : string) : option entry :=
  match own s k with
  | Some l => h !! l
  | None => None
  end.

(** [Object.keys( s )]. *)
Definition keys (s : schema) : list string := map fst s.

(** Evaluation of an object literal whose property values are object
    literals: one fresh entry per property, in source order. *)
Fixpoint object_literal (h : heap) (props : list (string * entry))
  : heap * schema :=
  match props with
  | [] => (h, [])
  | (k, e) :: props' =>
      let '(h', s) := object_literal (h ++ [e]) props' in
      (h', (k, length h) :: s)
  end.

(** lodash [omit( s, k )] for a single top-level key: a new object with
    the remaining own properties, their values copied by reference. *)
Definition omit (s : schema) (k : string) : schema :=
  List.filter (fun p => negb (String.eqb (fst p) k)) s.

(** [o.children = c] on the entry object at [l]. *)
Definition set_children (h : heap) (l : loc) (c : option schema) : heap :=
  match h !! l with
  | Some e => <[l := Entry (attributes e) (classes e) c (require e)]> h
  | None => h
  end.

(** [window.Node.ELEMENT_NODE], [TEXT_NODE]; a comment has type 8. *)
Definition ELEMENT_NODE : nat := 1.
Definition TEXT_NODE : nat := 3.
Definition COMMENT_NODE : nat := 8.

(** The property key a node type turns into ([String( 3 )] is ['3']). *)
Definition type_key (t : nat) : string :=
  String (ascii_of_nat (48 + t)) EmptyString.

(** The tags whose [children] the [forEach] of
    [getPhrasingContentSchema] assigns. *)
Definition nesting_tags : list string :=
  ["strong"; "em"; "del"; "ins"; "a"; "code"; "abbr"; "sub"; "sup"].

(** [getPhrasingContentSchema()].  The computed key [[ TEXT_NODE ]] is
    the integer-like key ['3'], which [Object.keys] lists first.  Each
    [children] is a shallow copy of the schema object, so the entries it
    refers to are the very objects of the top level, whose own [children]
    are assigned in turn: the object graph is cyclic. *)
Definition getPhrasingContentSchema (h : heap) : heap * schema :=
  let '(h1, phrasingContentSchema) :=
    object_literal h
      [ (type_key TEXT_NODE, empty_entry);
        ("strong", empty_entry);
        ("em", empty_entry);
        ("del", empty_entry);
        ("ins", empty_entry);
        ("a", Entry (Some ["href"]) None None None);
        ("code", empty_entry);
        ("abbr", Entry (Some ["title"]) None None None);
        ("sub", empty_entry);
        ("sup", empty_entry);
        ("br", empty_entry) ] in
  let h2 :=
    fold_left
      (fun h tag =>
         match own phrasingContentSchema tag with
         | Some l => set_children h l (Some (omit phrasingContentSchema tag))
         | None => h
         end)
      nesting_tags h1 in
  (h2, phrasingContentSchema).

(** Following a chain of tags down the [children] fields. *)
Fixpoint descend (h : heap) (s : schema) (path : list string)
  : option schema :=
  match path with
  | [] => Some s
  | t :: path' =>
      match get_entry h s t with
      | Some e =>
          match children e with
          | Some c => descend h c path'
          | None => None
          end
      | None => None
      end
  end.

(** A chain of tags, all among [tags], in which no tag directly contains
    itself. *)
Fixpoint chain_ok (tags : list string) (prev : option string)
    (path : list string) : bool :=
  match path with
  | [] => true
  | t :: path' =>
      includes tags t
      && match prev with
         | Some p => negb (String.eqb p t)
         | None => true
         end
      && chain_ok tags (Some t) path'
  end.

(** The schema a chain ends in: the top level less the last tag. *)
Definition omit_last (s : schema) (path : list string) : schema :=
  match last path with
  | Some t => omit s t
  | None => s
  end.

(** Relocation of references, to state that allocation does not depend
    on what the store already holds. *)
Definition shift (b : nat) (s : schema) : schema :=
  map (fun p => (fst p, b + snd p)) s.

Definition shift_entry (b : nat) (e : entry) : entry :=
  Entry (attributes e) (classes e) (shift b <$> children e) (require e).

(** ** DOM trees

    A node of a parsed HTML document, as the sanitizer and the
    classifiers read it: an element with its local name (lower case, as
    the HTML parser leaves it), its attributes in order and its child
    nodes; a text node; a comment. *)

Inductive node : Type :=
| Element (localName : string) (attrs : list (string * string))
          (childNodes : list node)
| Text (data : string)
| Comment (data : string).

(** [node.nodeName]: the upper-cased name for an HTML element. *)
Definition nodeName (n : node) : string :=
  match n with
  | Element name _ _ => toUpperCase name
  | Text _ => "#text"
  | Comment _ => "#comment"
  end.

Definition nodeType (n : node) : nat :=
  match n with
  | Element _ _ _ => ELEMENT_NODE
  | Text _ => TEXT_NODE
  | Comment _ => COMMENT_NODE
  end.

Definition is_element (n : node) : bool :=
  match n with Element _ _ _ => true | _ => false end.

(** [node.childNodes]. *)
Definition childNodes_of (n : node) : list node :=
  match n with Element _ _ kids => kids | _ => [] end.

(** [node.nextElementSibling], from the siblings that follow the node. *)
Definition nextElementSibling (following : list node) : option node :=
  head (List.filter is_element following).

(** [isPhrasingContent( node )].  Only the own keys of a freshly built
    phrasing schema are looked at. *)
Definition isPhrasingContentNamed (nodeName : string) : bool :=
  let tag := toLowerCase nodeName in
  hasOwnProperty (getPhrasingContentSchema []).2 tag || String.eqb tag "span".

Definition isPhrasingContent (n : node) : bool :=
  isPhrasingContentNamed (nodeName n).

(** ** is-inline-content.js *)

Definition inlineWhitelistTagGroups : list (list string) :=
  [ ["ul"; "li"; "ol"];
    ["h1"; "h2"; "h3"; "h4"; "h5"; "h6"] ].

(** JavaScript falsiness of a possibly missing string. *)
Definition falsy (s : option string) : bool :=
  match s with
  | None => true
  | Some s => String.eqb s EmptyString
  end.

Definition isInlineForTag (nodeName : string) (tagName : option string) : bool :=
  if falsy tagName || falsy (Some nodeName) then false
  else
    existsb
      (fun tagGroup =>
         includes tagGroup nodeName
         && match tagName with
            | Some t => includes tagGroup t
            | None => false
            end)
      inlineWhitelistTagGroups.

Definition isInline (n : node) (tagName : option string) : bool :=
  let nodeName := toLowerCase (nodeName n) in
  isPhrasingContent n || isInlineForTag nodeName tagName.

(** [deepCheck( nodes, tagName )], on a list of elements. *)
Fixpoint deepCheck_node (tagName : option string) (n : node) : bool :=
  isInline n tagName
  && match n with
     | Element _ _ kids =>
         (fix every (l : list node) : bool :=
            match l with
            | [] => true
            | k :: l' =>
                (if is_element k then deepCheck_node tagName k else true)
                && every l'
            end) kids
     | _ => true
     end.

Definition deepCheck (nodes : list node) (tagName : option string) : bool :=
  forallb (deepCheck_node tagName) nodes.

(** [isDoubleBR( node )]; [prev] is [node.previousSibling]. *)
Definition isDoubleBR (prev : option node) (n : node) : bool :=
  String.eqb (nodeName n) "BR"
  && match prev with
     | Some p => String.eqb (nodeName p) "BR"
     | None => false
     end.

(** The elements of a child list, each with its previous sibling. *)
Fixpoint children_with_previous (prev : option node) (l : list node)
  : list (option node * node) :=
  match l with
  | [] => []
  | n :: l' =>
      (if is_element n then [(prev, n)] else [])
      ++ children_with_previous (Some n) l'
  end.

(** The exported function, on the child nodes of [doc.body] after
    [doc.body.innerHTML = HTML]. *)
Definition isInlineContentOf (body : list node) (tagName : option string)
  : bool :=
  let nodes := children_with_previous None body in
  negb (existsb (fun pn => isDoubleBR pn.1 pn.2) nodes)
  && deepCheck (map snd nodes) tagName.

(** ** The browser's HTML fragment parser and serializer

    [doc.body.innerHTML = HTML] and [doc.body.innerHTML] belong to the
    host, not to this repository.  The parser below covers the part of
    the HTML tree-construction algorithm on which it is plain stack
    discipline, and answers [None] outside of it: tags of the four lists
    below only, every element closed by its own end tag, no block opened
    while a [p] is open, no [a] inside an [a], no character references,
    no comments. *)

Definition parse_void : list string := ["br"; "img"; "wbr"].
Definition parse_formatting : list string :=
  ["b"; "code"; "em"; "i"; "s"; "small"; "strong"; "u"].
Definition parse_ordinary : list string :=
  ["abbr"; "cite"; "del"; "ins"; "mark"; "q"; "span"; "sub"; "sup"].
Definition parse_block : list string :=
  ["article"; "aside"; "blockquote"; "div"; "figcaption"; "figure";
   "footer"; "header"; "main"; "nav"; "ol"; "p"; "section"; "ul"].

Record frame : Type := Frame {
  frame_tag : string;
  frame_attrs : list (string * string);
  frame_kids : list node            (* latest first *)
}.

Record builder : Type := Builder {
  open_elements : list frame;       (* current node first *)
  body_kids : list node             (* latest first *)
}.

Definition append_node (n : node) (b : builder) : builder :=
  match open_elements b with
  | [] => Builder [] (n :: body_kids b)
  | f :: fs =>
      Builder (Frame (frame_tag f) (frame_attrs f) (n :: frame_kids f) :: fs)
              (body_kids b)
  end.

Definition string_of_rev (buf : list ascii) : string :=
  String.string_of_list_ascii (rev buf).

Definition flush_text (buf : list ascii) (b : builder) : builder :=
  match buf with
  | [] => b
  | _ :: _ => append_node (Text (string_of_rev buf)) b
  end.

Definition is_open (name : string) (b : builder) : bool :=
  includes (map frame_tag (open_elements b)) name.

Definition start_tag (name : string) (attrs : list (string * string))
    (b : builder) : option builder :=
  if includes parse_void name then
    Some (append_node (Element name attrs []) b)
  else if String.eqb name "a" then
    if is_open "a" b then None
    else Some (Builder (Frame name attrs [] :: open_elements b) (body_kids b))
  else if includes parse_formatting name || includes parse_ordinary name then
    Some (Builder (Frame name attrs [] :: open_elements b) (body_kids b))
  else if includes parse_block name then
    if is_open "p" b then None
    else Some (Builder (Frame name attrs [] :: open_elements b) (body_kids b))
  else None.

Definition end_tag (name : string) (b : builder) : option builder :=
  match open_elements b with
  | f :: fs =>
      if String.eqb (frame_tag f) name then
        Some (append_node (Element name (frame_attrs f) (rev (frame_kids f)))
                          (Builder fs (body_kids b)))
      else None
  | [] => None
  end.

Definition is_alpha (c : ascii) : bool := is_upper c || is_lower c.

Definition is_digit (c : ascii) : bool :=
  let n := nat_of_ascii c in (48 <=? n) && (n <=? 57).

Definition is_tag_space (c : ascii) : bool :=
  let n := nat_of_ascii c in (n =? 9) || (n =? 10) || (n =? 12) || (n =? 32).

(** The quotation mark, U+0022. *)
Definition dquote : ascii := ascii_of_nat 34.
Definition dq : string := String dquote EmptyString.

Definition one_of (cs : string) (c : ascii) : bool :=
  existsb (Ascii.eqb c) (String.list_ascii_of_string cs).

Definition is_ctl (c : ascii) : bool :=
  let n := nat_of_ascii c in (n =? 0) || (n =? 13).

(** An attribute whose name the tag already has is dropped. *)
Definition add_attr (attrs : list (string * string)) (name value : string)
  : list (string * string) :=
  if includes (map fst attrs) name then attrs else attrs ++ [(name, value)].

Inductive tokenizer : Type :=
| Data (buf : list ascii)
| TagOpen
| EndTagOpen
| TagName (name : list ascii)
| EndTagName (name : list ascii)
| BeforeAttributeName (tag : string) (attrs : list (string * string))
| AttributeName (tag : string) (attrs : list (string * string))
                (name : list ascii)
| BeforeAttributeValue (tag : string) (attrs : list (string * string))
                       (name : string)
| AttributeValueQuoted (quote : ascii) (tag : string)
                       (attrs : list (string * string)) (name : string)
                       (value : list ascii)
| AttributeValueUnquoted (tag : string) (attrs : list (string * string))
                         (name : string) (value : list ascii)
| AfterAttributeValue (tag : string) (attrs : list (string * string)).

Definition emit_start (tag : string) (attrs : list (string * string))
    (b : builder) : option (tokenizer * builder) :=
  match start_tag tag attrs b with
  | Some b' => Some (Data [], b')
  | None => None
  end.

Definition parse_step (st : tokenizer * builder) (c : ascii)
  : option (tokenizer * builder) :=
  let '(t, b) := st in
  match t with
  | Data buf =>
      if Ascii.eqb c "<" then Some (TagOpen, flush_text buf b)
      else if Ascii.eqb c "&" || is_ctl c then None
      else Some (Data (c :: buf), b)
  | TagOpen =>
      if Ascii.eqb c "/" then Some (EndTagOpen, b)
      else if is_alpha c then Some (TagName [lower_ascii c], b)
      else None
  | EndTagOpen =>
      if is_alpha c then Some (EndTagName [lower_ascii c], b) else None
  | TagName name =>
      if is_tag_space c then Some (BeforeAttributeName (string_of_rev name) [], b)
      else if Ascii.eqb c ">" then emit_start (string_of_rev name) [] b
      else if is_alpha c || is_digit c then
        Some (TagName (lower_ascii c :: name), b)
      else None
  | EndTagName name =>
      if Ascii.eqb c ">" then
        match end_tag (string_of_rev name) b with
        | Some b' => Some (Data [], b')
        | None => None
        end
      else if is_alpha c || is_digit c then
        Some (EndTagName (lower_ascii c :: name), b)
      else None
  | BeforeAttributeName tag attrs =>
      if is_tag_space c then Some (BeforeAttributeName tag attrs, b)
      else if Ascii.eqb c ">" then emit_start tag attrs b
      else if one_of ("/='<" +:+ dq) c || is_ctl c then None
      else Some (AttributeName tag attrs [lower_ascii c], b)
  | AttributeName tag attrs name =>
      if is_tag_space c then
        Some (BeforeAttributeName tag (add_attr attrs (string_of_rev name) EmptyString), b)
      else if Ascii.eqb c "=" then
        Some (BeforeAttributeValue tag attrs (string_of_rev name), b)
      else if Ascii.eqb c ">" then
        emit_start tag (add_attr attrs (string_of_rev name) EmptyString) b
      else if one_of ("/'<" +:+ dq) c || is_ctl c then None
      else Some (AttributeName tag attrs (lower_ascii c :: name), b)
  | BeforeAttributeValue tag attrs name =>
      if one_of ("'" +:+ dq) c then Some (AttributeValueQuoted c tag attrs name [], b)
      else if is_tag_space c || one_of "><=`&" c || is_ctl c then None
      else Some (AttributeValueUnquoted tag attrs name [c], b)
  | AttributeValueQuoted q tag attrs name value =>
      if Ascii.eqb c q then
        Some (AfterAttributeValue tag (add_attr attrs name (string_of_rev value)), b)
      else if Ascii.eqb c "&" || is_ctl c then None
      else Some (AttributeValueQuoted q tag attrs name (c :: value), b)
  | AttributeValueUnquoted tag attrs name value =>
      if is_tag_space c then
        Some (BeforeAttributeName tag (add_attr attrs name (string_of_rev value)), b)
      else if Ascii.eqb c ">" then
        emit_start tag (add_attr attrs name (string_of_rev value)) b
      else if one_of ("'<=`&" +:+ dq) c || is_ctl c then None
      else Some (AttributeValueUnquoted tag attrs name (c :: value), b)
  | AfterAttributeValue tag attrs =>
      if is_tag_space c then Some (BeforeAttributeName tag attrs, b)
      else if Ascii.eqb c ">" then emit_start tag attrs b
      else None
  end.

Fixpoint parse_run (st : tokenizer * builder) (s : string)
  : option (list node) :=
  match s with
  | EmptyString =>
      match st with
      | (Data buf, b) =>
          match open_elements (flush_text buf b) with
          | [] => Some (rev (body_kids (flush_text buf b)))
          | _ :: _ => None
          end
      | _ => None
      end
  | String c s' =>
      match parse_step st c with
      | Some st' => parse_run st' s'
      | None => None
      end
  end.

(** The child nodes of [doc.body] after [doc.body.innerHTML = HTML]. *)
Definition parseHTML (HTML : string) : option (list node) :=
  parse_run (Data [], Builder [] []) HTML.

(** Serialization ([innerHTML]) as the HTML standard defines it. *)
Definition void_elements : list string :=
  ["area"; "base"; "basefont"; "bgsound"; "br"; "col"; "embed"; "frame";
   "hr"; "img"; "input"; "keygen"; "link"; "meta"; "param"; "source";
   "track"; "wbr"].

Definition raw_text_elements : list string :=
  ["style"; "script"; "xmp"; "iframe"; "noembed"; "noframes"; "plaintext"].

Fixpoint escape (attribute_mode : bool) (s : string) : string :=
  match s with
  | EmptyString => EmptyString
  | String c s' =>
      (if Ascii.eqb c "&" then "&amp;"
       else if Nat.eqb (nat_of_ascii c) 160 then "&nbsp;"
       else if attribute_mode && Ascii.eqb c dquote then "&quot;"
       else if negb attribute_mode && Ascii.eqb c "<" then "&lt;"
       else if negb attribute_mode && Ascii.eqb c ">" then "&gt;"
       else String c EmptyString)
      +:+ escape attribute_mode s'
  end.

Definition serialize_attrs (attrs : list (string * string)) : string :=
  String.concat EmptyString
    (map (fun a => " " +:+ a.1 +:+ "=" +:+ dq +:+ escape true a.2 +:+ dq) attrs).

Fixpoint serialize_node (parent_raw : bool) (n : node) : string :=
  match n with
  | Element name attrs kids =>
      "<" +:+ name +:+ serialize_attrs attrs +:+ ">"
      +:+ (if includes void_elements name then EmptyString
           else
             (fix all (l : list node) : string :=
                match l with
                | [] => EmptyString
                | k :: l' =>
                    serialize_node (includes raw_text_elements name) k
                    +:+ all l'
                end) kids
             +:+ "</" +:+ name +:+ ">")
  | Text data => if parent_raw then data else escape false data
  | Comment data => "<!--" +:+ data +:+ "-->"
  end.

(** [doc.body.innerHTML], read. *)
Definition innerHTML (body : list node) : string :=
  String.concat EmptyString (map (serialize_node false) body).

(** [isInlineContent( HTML, tagName )]. *)
Definition isInlineContent (HTML : string) (tagName : option string)
  : option bool :=
  match parseHTML HTML with
  | Some body => Some (isInlineContentOf body tagName)
  | None => None
  end.

(** A line-break element, and a child list in which one directly follows
    another. *)
Definition is_br (n : node) : bool :=
  match n with
  | Element name _ _ => String.eqb name "br"
  | _ => false
  end.

Fixpoint adjacent_br (l : list node) : bool :=
  match l with
  | [] => false
  | a :: l' =>
      match l' with
      | b :: _ => (is_br a && is_br b) || adjacent_br l'
      | [] => false
      end
  end.

(** The same, in the child list of some node at any depth. *)
Fixpoint adjacent_br_deep_node (n : node) : bool :=
  match n with
  | Element _ _ kids =>
      adjacent_br kids
      || (fix any (l : list node) : bool :=
            match l with
            | [] => false
            | k :: l' => adjacent_br_deep_node k || any l'
            end) kids
  | _ => false
  end.

Definition adjacent_br_deep (body : list node) : bool :=
  adjacent_br body || existsb adjacent_br_deep_node body.

(** ** The schema sanitizer *)

(** [isEmpty( element )]. *)
Fixpoint isEmpty (element : node) : bool :=
  match element with
  | Element _ _ kids =>
      (fix every (l : list node) : bool :=
         match l with
         | [] => true
         | k :: l' =>
             match k with
             | Text data => trims_to_empty data
             | Element _ attrs _ =>
                 if String.eqb (nodeName k) "BR" then true
                 else match attrs with
                      | _ :: _ => false
                      | [] => isEmpty k
                      end
             | Comment _ => true
             end
             && every l'
         end) kids
  | _ => true
  end.

(** [getAttribute], [removeAttribute] and [setAttribute] on the attribute
    list of an element. *)
Fixpoint getAttribute (attrs : list (string * string)) (name : string)
  : option string :=
  match attrs with
  | [] => None
  | (k, v) :: attrs' =>
      if String.eqb k name then Some v else getAttribute attrs' name
  end.

Definition removeAttribute (attrs : list (string * string)) (name : string)
  : list (string * string) :=
  List.filter (fun a => negb (String.eqb a.1 name)) attrs.

Fixpoint setAttribute (attrs : list (string * string)) (name value : string)
  : list (string * string) :=
  match attrs with
  | [] => [(name, value)]
  | (k, v) :: attrs' =>
      if String.eqb k name then (k, value) :: attrs'
      else (k, v) :: setAttribute attrs' name value
  end.

Definition nonempty (s : string) : bool :=
  match s with EmptyString => false | String _ _ => true end.

(** "Strip invalid attributes": every attribute but [class] and the
    listed ones is removed. *)
Definition strip_attributes (attributes : list string)
    (attrs : list (string * string)) : list (string * string) :=
  List.filter
    (fun a => String.eqb a.1 "class" || includes attributes a.1) attrs.

(** "Strip invalid classes". *)
Definition strip_classes (classes : list string)
    (attrs : list (string * string)) : list (string * string) :=
  let oldClasses := default EmptyString (getAttribute attrs "class") in
  let newClasses :=
    join " "
      (List.filter (fun name => nonempty name && includes classes name)
                   (split_space oldClasses)) in
  if nonempty newClasses then setAttribute attrs "class" newClasses
  else removeAttribute attrs "class".

(** Modelled from the spec: [remove] of [@wordpress/utils], which is not
    among the sources.  The spec has it "remove the node entirely":
    nothing takes the place of the node in its parent. *)
Definition remove (n : node) : list node := [].

(** Modelled from the spec: [unwrap] of [@wordpress/utils], which is not
    among the sources.  "Unwrap: remove a node from the tree while
    splicing its children into its former position, preserving order":
    the child nodes take the place of the node. *)
Definition unwrap (n : node) : list node := childNodes_of n.

(** Modelled from the spec: [insertAfter] of [@wordpress/utils], which is
    not among the sources.  The spec has the line break inserted "at the
    unwrap point": the new node follows what stands in the place of the
    reference node. *)
Definition insertAfter (newNode : node) (place : list node) : list node :=
  place ++ [newNode].

(** [node.removeNode( child )].  The DOM's [Node] and [Element]
    interfaces have [removeChild] and no member [removeNode] (a method of
    old Internet Explorer only): the property is [undefined] and calling
    it throws. *)
Definition removeNode (n child : node) : result (list node) :=
  Throw TypeError.

Section Sanitizer.

(** [node.querySelector( selectors )] is the host's: whether some
    descendant of the node matches the selector list, or the
    [SyntaxError] of a malformed list. *)
Variable querySelector : string -> node -> result bool.

(** The object store the schema refers to; the sanitizer only reads
    it. *)
Variable h : heap.

(** One turn of the [forEach] of [cleanNodeList]: what takes the place
    of [n] in its parent.  The turn changes the parent's child list at the
    place of [n] only, and the loop runs over a copy of the list taken
    beforehand, so each node is met as it was parsed, and [following], the
    siblings after [n], are as parsed too.  After [unwrap( node )] the
    node has no child nodes, so the call of [cleanNodeList] on
    [node.childNodes] that follows it does nothing. *)
Fixpoint cleanNode (sch : schema) (inline : bool)
    (following : list node) (n : node) {struct n} : result (list node) :=
  let cleanNodeList :=
    fix cleanNodeList (sch : schema) (l : list node) {struct l}
      : result (list node) :=
      match l with
      | [] => Ok []
      | x :: l' =>
          r <~ cleanNode sch inline l' x ;;
          rs <~ cleanNodeList sch l' ;;
          Ok (r ++ rs)
      end in
  let tag := toLowerCase (nodeName n) in
  if hasOwnProperty sch tag
     || hasOwnProperty sch (type_key (nodeType n)) then
    match n with
    | Element name attrs kids =>
        match get_entry h sch tag with
        | None => Throw TypeError
        | Some e =>
            let attributes := default [] (attributes e) in
            let classes := default [] (classes e) in
            let require := default [] (require e) in
            if isEmpty n && bool_decide (is_Some (children e)) then
              Ok (remove n)
            else
              let attrs1 := strip_attributes attributes attrs in
              let attrs2 := strip_classes classes attrs1 in
              match kids with
              | [] => Ok [Element name attrs2 []]
              | first :: _ =>
                  match children e with
                  | Some children =>
                      missing <~
                        match require with
                        | [] => Ok false
                        | _ :: _ =>
                            found <~ querySelector (join "," require)
                                                   (Element name attrs2 kids) ;;
                            Ok (negb found)
                        end ;;
                      if (missing : bool) then
                        kids' <~ cleanNodeList sch kids ;;
                        Ok (unwrap (Element name attrs2 kids'))
                      else
                        kids' <~ cleanNodeList children kids ;;
                        Ok [Element name attrs2 kids']
                  | None => removeNode (Element name attrs2 kids) first
                  end
              end
        end
    | _ => Ok [n]
    end
  else
    n' <~
      match n with
      | Element name attrs kids =>
          kids' <~ cleanNodeList sch kids ;;
          Ok (Element name attrs kids')
      | _ => Ok n
      end ;;
    Ok (if inline && negb (isPhrasingContent n)
           && bool_decide (is_Some (nextElementSibling following))
        then insertAfter (Element "br" [] []) (unwrap n')
        else unwrap n').

(** [cleanNodeList( nodeList, doc, schema, inline )]: the child list
    that results. *)
Definition cleanNodeList (sch : schema) (inline : bool) (l : list node)
  : result (list node) :=
  (fix cleanNodeList (sch : schema) (l : list node) {struct l}
     : result (list node) :=
     match l with
     | [] => Ok []
     | x :: l' =>
         r <~ cleanNode sch inline l' x ;;
         rs <~ cleanNodeList sch l' ;;
         Ok (r ++ rs)
     end) sch l.

(** [removeInvalidHTML( HTML, schema, inline )]; [None] when the input
    is outside the fragment [parseHTML] covers. *)
Definition removeInvalidHTML (HTML : string) (sch : schema)
    (inline : bool) : option (result string) :=
  match parseHTML HTML with
  | Some body =>
      Some (body' <~ cleanNodeList sch inline body ;; Ok (innerHTML body'))
  | None => None
  end.




End Sanitizer.

(** A selector engine for the examples: selector lists made of type
    selectors ([img], [IMG, video]).  In an HTML document a type selector
    matches an element whose local name is the selector in lower case,
    and white space around a selector does not count.  The engine
    answers [SyntaxError] for every other list, which is the host's
    answer for a malformed list only. *)
Fixpoint split_on (sep : ascii) (s : string) : list string :=
  match s with
  | EmptyString => [EmptyString]
  | String c s' =>
      if Ascii.eqb c sep then EmptyString :: split_on sep s'
      else match split_on sep s' with
           | [] => [String c EmptyString]
           | w :: ws => String c w :: ws
           end
  end.

Fixpoint has_descendant (names : list string) (n : node) : bool :=
  match n with
  | Element _ _ kids =>
      (fix any (l : list node) : bool :=
         match l with
         | [] => false
         | k :: l' =>
             match k with
             | Element name _ _ => includes names name
             | _ => false
             end
             || has_descendant names k || any l'
         end) kids
  | _ => false
  end.

Fixpoint trim_left (s : string) : string :=
  match s with
  | String c s' => if is_tag_space c then trim_left s' else s
  | EmptyString => EmptyString
  end.

Fixpoint trim_right (s : string) : string :=
  match s with
  | String c s' =>
      match trim_right s' with
      | EmptyString => if is_tag_space c then EmptyString
                       else String c EmptyString
      | t => String c t
      end
  | EmptyString => EmptyString
  end.

Definition is_type_selector (s : string) : bool :=
  match s with
  | String c s' =>
      is_alpha c && string_forallb (fun c => is_alpha c || is_digit c) s'
  | EmptyString => false
  end.

Definition type_selectors (selectors : string) (n : node) : result bool :=
  let names := map (fun w => trim_left (trim_right w))
                   (split_on "," selectors) in
  if forallb is_type_selector names
  then Ok (has_descendant (map toLowerCase names) n)
  else Throw SyntaxError.

(** A string without a space, as [split( ' ' )] yields them. *)
Definition space_free (w : string) : bool :=
  string_forallb (fun c => negb (Ascii.eqb c " ")) w.

(** ** Composition of the block content schema *)

(** A transform descriptor, reduced to its [schema] property, which may
    be missing. *)
Record transform : Type := Transform {
  transform_schema : option schema
}.

(** An array index as a property key: the decimal numeral, without a
    leading zero, of an integer below [2^32 - 1].  [Object.keys] and the
    spread list such keys first, in ascending order, and the other keys
    after them in the order of their creation. *)
Definition digit (c : ascii) : option N :=
  let n := nat_of_ascii c in
  if (48 <=? n) && (n <=? 57) then Some (N.of_nat (n - 48)) else None.

Fixpoint numeral (acc : N) (s : string) : option N :=
  match s with
  | EmptyString => Some acc
  | String c s' =>
      match digit c with
      | Some d => numeral (10 * acc + d)%N s'
      | None => None
      end
  end.

Definition array_index (k : string) : option N :=
  match k with
  | EmptyString => None
  | String c rest =>
      if Ascii.eqb c "0" && nonempty rest then None
      else
        match numeral 0%N k with
        | Some n => if (n <? 4294967295)%N then Some n else None
        | None => None
        end
  end.

(** Whether the new key [k] comes before the key [k'] of the object. *)
Definition goes_before (k k' : string) : bool :=
  match array_index k, array_index k' with
  | Some n, Some n' => (n <? n')%N
  | Some _, None => true
  | None, _ => false
  end.

(** A new own property takes its place in key order. *)
Fixpoint add_key (s : schema) (k : string) (l : loc) : schema :=
  match s with
  | [] => [(k, l)]
  | (k', l') :: s' =>
      if goes_before k k' then (k, l) :: s
      else (k', l') :: add_key s' k l
  end.

(** [s[ k ] = l] on a fresh copy of [s]: a key the object has keeps its
    place, a new key takes its place in key order. *)
Definition set_prop (s : schema) (k : string) (l : loc) : schema :=
  if hasOwnProperty s k
  then map (fun p => if String.eqb p.1 k then (p.1, l) else p) s
  else add_key s k l.

(** The object literal of two spreads: the properties of [a], then those of
    [b], which overwrite. *)
Definition spread (a b : schema) : schema :=
  fold_left (fun acc p => set_prop acc p.1 p.2) b a.

(** The properties every object literal inherits from [Object.prototype].
    [accu[ tag ]] finds them when [accu] has no own property of that
    name.  Their values are functions of the host (the function [Object]
    for [constructor]) and, for [__proto__], the object
    [Object.prototype] itself; all of them are truthy, and all of them
    take assignments to their fields.  What the other objects inherit
    from [Object.prototype] once fields have been assigned on it is not
    followed here. *)
Definition Object_prototype : list string :=
  ["constructor"; "__defineGetter__"; "__defineSetter__"; "hasOwnProperty";
   "__lookupGetter__"; "__lookupSetter__"; "isPrototypeOf";
   "propertyIsEnumerable"; "toString"; "valueOf"; "__proto__";
   "toLocaleString"].

(** What [accu[ tag ]] evaluates to when it is truthy: an own property,
    which is an entry object of the store, or an inherited one, which is
    an object of the host. *)
Inductive found : Type :=
| Own (l : loc)
| Inherited (name : string).

(** [accu[ tag ]]. *)
Definition lookup_prop (accu : schema) (tag : string) : option found :=
  match own accu tag with
  | Some l => Some (Own l)
  | None =>
      if includes Object_prototype tag then Some (Inherited tag) else None
  end.

(** The objects of the host that [accu[ tag ]] can find: for each, the
    fields [attributes], [children] and [require] assigned on it so far.
    They outlive the call. *)
Abbreviation host := (list (string * entry)).

Fixpoint host_object (g : host) (name : string) : entry :=
  match g with
  | [] => empty_entry
  | (k, e) :: g' => if String.eqb k name then e else host_object g' name
  end.

(** The host's objects and the store of entry objects. *)
Definition read (w : host * heap) (o : found) : option entry :=
  match o with
  | Own l => w.2 !! l
  | Inherited name => Some (host_object w.1 name)
  end.

Definition write (w : host * heap) (o : found) (e : entry) : host * heap :=
  match o with
  | Own l => (w.1, <[l := e]> w.2)
  | Inherited name => ((name, e) :: w.1, w.2)
  end.

(** [o.children = c], [o.attributes = v] and [o.require = v] on the
    object [o]. *)
Definition assign_children (w : host * heap) (o : found) (c : option schema)
  : host * heap :=
  match read w o with
  | Some e => write w o (Entry (attributes e) (classes e) c (require e))
  | None => w
  end.

Definition assign_attributes (w : host * heap) (o : found)
    (v : option (list string)) : host * heap :=
  match read w o with
  | Some e => write w o (Entry v (classes e) (children e) (require e))
  | None => w
  end.

Definition assign_require (w : host * heap) (o : found)
    (v : option (list string)) : host * heap :=
  match read w o with
  | Some e => write w o (Entry (attributes e) (classes e) (children e) v)
  | None => w
  end.

(** One turn of [Object.keys( schema ).forEach]: [ls] is [schema[ tag ]].
    When [accu[ tag ]] is truthy, the three assignments read and write
    that object, one after the other: an entry object of the store, or,
    for an inherited name, an object of the host, and then the
    accumulator is left as it is.  Otherwise the object [schema[ tag ]]
    itself goes under the new key of a copy of the accumulator. *)
Definition merge_tag (st : host * heap * schema) (p : string * loc)
  : host * heap * schema :=
  let '(w, accu) := st in
  let '(tag, ls) := p in
  match lookup_prop accu tag with
  | Some o =>
      let w1 :=
        match read w o ≫= children, w.2 !! ls ≫= children with
        | None, None => w
        | ca, cs =>
            assign_children w o
              (Some (spread (default [] ca) (default [] cs)))
        end in
      let w2 :=
        assign_attributes w1 o
          (Some (default [] (read w1 o ≫= attributes)
                 ++ default [] (w1.2 !! ls ≫= attributes))) in
      let w3 :=
        assign_require w2 o
          (Some (default [] (read w2 o ≫= require)
                 ++ default [] (w2.2 !! ls ≫= require))) in
      (w3, accu)
  | None => (w, set_prop accu tag ls)
  end.

(** The reducer, with [{ schema = {} }] for a descriptor without
    schema. *)
Definition merge_transform (st : host * heap * schema) (t : transform)
  : host * heap * schema :=
  fold_left merge_tag (default [] (transform_schema t)) st.

(** [getBlockContentSchema( transforms )] in a host [g]: the host and
    the store after the call, and the composed schema. *)
Definition getBlockContentSchema_in (g : host) (h : heap)
    (transforms : list transform) : host * heap * schema :=
  fold_left merge_transform transforms ((g, h), []).

(** [getBlockContentSchema( transforms )]: the store after the call and
    the composed schema.  Neither depends on the fields the host's
    objects have when the call starts. *)
Definition getBlockContentSchema (h : heap) (transforms : list transform)
  : heap * schema :=
  let r := getBlockContentSchema_in [] h transforms in
  (r.1.2, r.2).






(** The properties of all the schemas, in the order the reducer visits
    them. *)
Definition all_props (transforms : list transform) : list (string * loc) :=
  flat_map (fun t => default [] (transform_schema t)) transforms.



(** No tag of a descriptor is a property that objects inherit. *)
Definition no_inherited_keys (transforms : list transform) : bool :=
  forallb (fun p => negb (includes Object_prototype p.1))
          (all_props transforms).

(** No tag of a descriptor is an array index. *)
Definition no_index_keys (transforms : list transform) : bool :=
  forallb (fun p => bool_decide (array_index p.1 = None))
          (all_props transforms).




(** Two descriptors that both contribute a [figure] entry with an [img]
    child, for the examples: the store and the descriptors. *)
Definition figure_store : heap :=
  [ Entry (Some ["src"]) None None None;
    Entry (Some ["id"]) (Some ["wide"]) (Some [("img", 0)]) (Some ["img"]);
    Entry (Some ["alt"]) None None None;
    Entry (Some ["title"]) (Some ["tall"]) (Some [("img", 2)])
          (Some ["video"]) ].

Definition figure_with_src : transform := Transform (Some [("figure", 1)]).

(** ** Documents with node identity

    The filters move nodes about and the engine asks whether a node is
    still in the document, so here nodes have an identity.  A document is
    the tree under its [Document] node together with the trees that are
    detached from it; a node is named by its identifier, which occurs
    once. *)

Inductive label : Type :=
| LDocument
| LDoctype
| LElement (localName : string) (attrs : list (string * string))
| LText (data : string)
| LComment (data : string).

Inductive dnode : Type :=
| DNode (id : nat) (l : label) (kids : list dnode).

Record document : Type := Document {
  root : dnode;
  detached : list dnode;
  next_id : nat
}.

Definition dnode_id (n : dnode) : nat := match n with DNode i _ _ => i end.
Definition dnode_label (n : dnode) : label := match n with DNode _ l _ => l end.
Definition dnode_kids (n : dnode) : list dnode :=
  match n with DNode _ _ kids => kids end.

Definition label_nodeName (l : label) : string :=
  match l with
  | LDocument => "#document"
  | LDoctype => "html"
  | LElement name _ => toUpperCase name
  | LText _ => "#text"
  | LComment _ => "#comment"
  end.

Definition label_is_element (l : label) : bool :=
  match l with LElement _ _ => true | _ => false end.

(** The chain from the node [i] up to the root of the tree [t]: the node
    first, then its parent, and so on. *)
Fixpoint path_in (i : nat) (t : dnode) : option (list dnode) :=
  match t with
  | DNode j _ kids =>
      if Nat.eqb i j then Some [t]
      else
        match
          (fix first (ks : list dnode) : option (list dnode) :=
             match ks with
             | [] => None
             | k :: ks' =>
                 match path_in i k with
                 | Some p => Some p
                 | None => first ks'
                 end
             end) kids
        with
        | Some p => Some (p ++ [t])
        | None => None
        end
  end.

Fixpoint path_among (i : nat) (ts : list dnode) : option (list dnode) :=
  match ts with
  | [] => None
  | t :: ts' =>
      match path_in i t with
      | Some p => Some p
      | None => path_among i ts'
      end
  end.

Definition path (d : document) (i : nat) : option (list dnode) :=
  path_among i (root d :: detached d).

(** The node behind an identifier. *)
Definition node_at (d : document) (i : nat) : option dnode :=
  match path d i with
  | Some (n :: _) => Some n
  | _ => None
  end.

(** [node.parentNode], [node.childNodes], [doc.contains( node )]. *)
Definition parentNode (d : document) (i : nat) : option dnode :=
  match path d i with
  | Some (_ :: p :: _) => Some p
  | _ => None
  end.

Definition childNodes (d : document) (i : nat) : list nat :=
  match node_at d i with
  | Some n => map dnode_id (dnode_kids n)
  | None => []
  end.

Definition contains (d : document) (i : nat) : bool :=
  match path_in i (root d) with Some _ => true | None => false end.

(** The tree without the node [i] and what is below it. *)
Fixpoint remove_in (i : nat) (t : dnode) : dnode :=
  match t with
  | DNode j l kids =>
      DNode j l
        ((fix each (ks : list dnode) : list dnode :=
            match ks with
            | [] => []
            | k :: ks' =>
                if Nat.eqb (dnode_id k) i then each ks'
                else remove_in i k :: each ks'
            end) kids)
  end.

Fixpoint insert_before (ref : option nat) (new : dnode) (ks : list dnode)
  : list dnode :=
  match ref with
  | None => ks ++ [new]
  | Some r =>
      match ks with
      | [] => [new]
      | k :: ks' =>
          if Nat.eqb (dnode_id k) r then new :: k :: ks'
          else k :: insert_before ref new ks'
      end
  end.

(** The tree with [new] among the children of the node [p]. *)
Fixpoint insert_in (p : nat) (ref : option nat) (new : dnode) (t : dnode)
  : dnode :=
  match t with
  | DNode j l kids =>
      if Nat.eqb j p then DNode j l (insert_before ref new kids)
      else
        DNode j l
          ((fix each (ks : list dnode) : list dnode :=
              match ks with
              | [] => []
              | k :: ks' => insert_in p ref new k :: each ks'
              end) kids)
  end.

Fixpoint next_sibling_in (i : nat) (ks : list dnode) : option nat :=
  match ks with
  | [] => None
  | k :: ks' =>
      if Nat.eqb (dnode_id k) i then head (map dnode_id ks')
      else next_sibling_in i ks'
  end.

(** [parent.insertBefore( new, ref )], with [ref] possibly [null]: the
    node leaves the place it has and goes before [ref] under [parent].
    A node cannot go below itself, and [ref] has to be a child of
    [parent]. *)
Definition insertBefore (d : document) (parent new : nat) (ref : option nat)
  : result document :=
  match node_at d parent, path d new with
  | Some pn, Some (nn :: _) =>
      match path_in parent nn with
      | Some _ => Throw DOMException
      | None =>
          let ref' :=
            match ref with
            | Some r =>
                if Nat.eqb r new then next_sibling_in new (dnode_kids pn)
                else Some r
            | None => None
            end in
          if match ref' with
             | Some r => bool_decide (r ∈ map dnode_id (dnode_kids pn))
             | None => true
             end
          then
            let without :=
              Document
                (remove_in new (root d))
                (map (remove_in new)
                     (List.filter (fun t => negb (Nat.eqb (dnode_id t) new))
                                  (detached d)))
                (next_id d) in
            Ok (Document
                  (insert_in parent ref' nn (root without))
                  (map (insert_in parent ref' nn) (detached without))
                  (next_id d))
          else Throw DOMException
      end
  | _, _ => Throw TypeError
  end.

(** [parent.appendChild( new )]. *)
Definition appendChild (d : document) (parent new : nat) : result document :=
  insertBefore d parent new None.

(** [doc.createElement( name )]: the new element and the document that
    holds it, detached. *)
Definition createElement (d : document) (name : string) : nat * document :=
  (next_id d,
   Document (root d)
            (detached d ++ [DNode (next_id d) (LElement name []) []])
            (S (next_id d))).

(** Identifiers for a parsed child list, in tree order. *)
Fixpoint number_node (next : nat) (n : node) : dnode * nat :=
  match n with
  | Element name attrs kids =>
      let '(ks, next') :=
        (fix each (next : nat) (l : list node) : list dnode * nat :=
           match l with
           | [] => ([], next)
           | k :: l' =>
               let '(k', next1) := number_node next k in
               let '(ks, next2) := each next1 l' in
               (k' :: ks, next2)
           end) (S next) kids in
      (DNode next (LElement name attrs) ks, next')
  | Text data => (DNode next (LText data) [], S next)
  | Comment data => (DNode next (LComment data) [], S next)
  end.

Fixpoint number_nodes (next : nat) (l : list node) : list dnode * nat :=
  match l with
  | [] => ([], next)
  | k :: l' =>
      let '(k', next1) := number_node next k in
      let '(ks, next2) := number_nodes next1 l' in
      (k' :: ks, next2)
  end.

(** The identifier of [doc.body]. *)
Definition body_id : nat := 6.

(** [document.implementation.createHTMLDocument( '' )] followed by
    [doc.body.innerHTML = HTML] for the parsed child list [body]. *)
Definition createHTMLDocument (body : list node) : document :=
  let '(ks, next) := number_nodes (S body_id) body in
  Document
    (DNode 0 LDocument
       [ DNode 1 LDoctype [];
         DNode 2 (LElement "html" [])
           [ DNode 3 (LElement "head" [])
               [ DNode 4 (LElement "title" []) [DNode 5 (LText EmptyString) []] ];
             DNode body_id (LElement "body" []) ks ] ])
    [] next.

(** The first-order tree of a node, to serialize it. *)
Fixpoint erase (n : dnode) : list node :=
  match n with
  | DNode _ l kids =>
      let kids' :=
        (fix each (ks : list dnode) : list node :=
           match ks with
           | [] => []
           | k :: ks' => erase k ++ each ks'
           end) kids in
      match l with
      | LElement name attrs => [Element name attrs kids']
      | LText data => [Text data]
      | LComment data => [Comment data]
      | LDocument | LDoctype => []
      end
  end.

(** [doc.body.innerHTML], read. *)
Definition body_innerHTML (d : document) : string :=
  match node_at d body_id with
  | Some b => innerHTML (flat_map erase (dnode_kids b))
  | None => EmptyString
  end.

(** ** The tree filter engine *)

(** A filter is called as [item( node, doc, schema )] and acts on the
    document; [schema] may be missing. *)
Definition filter : Type :=
  nat -> document -> heap -> option schema -> result document.

(** The [filters.forEach] of [deepFilterNodeList] for one node. *)
Fixpoint apply_filters (filters : list filter) (h : heap)
    (sch : option schema) (node : nat) (d : document) : result document :=
  match filters with
  | [] => Ok d
  | item :: rest =>
      d' <~ (if contains d node then item node d h sch else Ok d) ;;
      apply_filters rest h sch node d'
  end.

(** [deepFilterNodeList( nodeList, filters, doc, schema )] on the
    identifiers [Array.from( nodeList )] holds.  The child list of a node
    is read when the loop reaches the node.  [fuel] bounds the depth of
    the descent; [None] means it ran out. *)
Fixpoint deepFilterNodeList (fuel : nat) (filters : list filter) (h : heap)
    (sch : option schema) (nodeList : list nat) (d : document)
  : option (result document) :=
  match fuel with
  | 0 => None
  | S fuel' =>
      (fix forEach (nodes : list nat) (d : document)
         : option (result document) :=
         match nodes with
         | [] => Some (Ok d)
         | node :: nodes' =>
             match deepFilterNodeList fuel' filters h sch
                                      (childNodes d node) d with
             | Some (Ok d1) =>
                 match apply_filters filters h sch node d1 with
                 | Ok d2 => forEach nodes' d2
                 | Throw e => Some (Throw e)
                 end
             | Some (Throw e) => Some (Throw e)
             | None => None
             end
         end) nodeList d
  end.

(** [deepFilterHTML( HTML, filters, schema )]; [None] when the input is
    outside the fragment [parseHTML] covers or the fuel runs out. *)
Definition deepFilterHTML (fuel : nat) (HTML : string) (filters : list filter)
    (h : heap) (sch : option schema) : option (result string) :=
  match parseHTML HTML with
  | Some body =>
      let doc := createHTMLDocument body in
      match deepFilterNodeList fuel filters h sch (childNodes doc body_id) doc with
      | Some (Ok doc') => Some (Ok (body_innerHTML doc'))
      | Some (Throw e) => Some (Throw e)
      | None => None
      end
  | None => None
  end.

(** ** embedded-content-reducer.js *)

(** [isEmbedded( node, schema )]. *)
Definition isEmbedded (l : label) (h : heap) (sch : option schema)
  : result bool :=
  let tag := toLowerCase (label_nodeName l) in
  match sch with
  | None => Throw TypeError
  | Some s =>
      if negb (hasOwnProperty s "figure")
         || String.eqb tag "figcaption"
         || isPhrasingContentNamed (label_nodeName l)
      then Ok false
      else
        match get_entry h s "figure" ≫= children with
        | Some c => Ok (hasOwnProperty c tag)
        | None => Throw TypeError
        end
  end.

(** The loop [while ( wrapper && wrapper.nodeName !== 'P' ) wrapper =
    wrapper.parentElement], along the chain from the node upwards. *)
Fixpoint find_wrapper (chain : list dnode) : option nat :=
  match chain with
  | [] => None
  | n :: rest =>
      if String.eqb (label_nodeName (dnode_label n)) "P" then Some (dnode_id n)
      else
        match rest with
        | p :: _ =>
            if label_is_element (dnode_label p) then find_wrapper rest
            else None
        | [] => None
        end
  end.

(** The default export of embedded-content-reducer.js. *)
Definition embeddedContentReducer : filter :=
  fun node doc h sch =>
    match node_at doc node with
    | None => Throw TypeError
    | Some n =>
        if negb (label_is_element (dnode_label n)) then Ok doc
        else
          embedded <~ isEmbedded (dnode_label n) h sch ;;
          if negb embedded then Ok doc
          else
            nodeToInsert <~
              (if String.eqb (label_nodeName (dnode_label n)) "IMG" then
                 match parentNode doc node with
                 | None => Throw TypeError
                 | Some p =>
                     if Nat.eqb (length (dnode_kids p)) 1
                        && String.eqb (label_nodeName (dnode_label p)) "A"
                     then Ok (dnode_id p)
                     else Ok node
                 end
               else Ok node) ;;
            let wrapper := find_wrapper (default [] (path doc nodeToInsert)) in
            let '(figure, doc1) := createElement doc "figure" in
            doc2 <~
              match wrapper with
              | Some w =>
                  match parentNode doc1 w with
                  | Some p => insertBefore doc1 (dnode_id p) figure (Some w)
                  | None => Throw TypeError
                  end
              | None =>
                  match parentNode doc1 nodeToInsert with
                  | Some p =>
                      insertBefore doc1 (dnode_id p) figure (Some nodeToInsert)
                  | None => Throw TypeError
                  end
              end ;;
            appendChild doc2 figure nodeToInsert
    end.

(** The schema of the test of the reducer: [{ figure: { children: { img:
    {} } } }]. *)
Definition figure_img_store : heap :=
  [ empty_entry; Entry None None (Some [("img", 0)]) None ].

Definition figure_img_schema : schema := [("figure", 1)].

(** Two filters that do the same to every node that is in the document. *)
Definition agree_when_attached (f f' : filter) : Prop :=
  forall node d h sch, contains d node = true -> f node d h sch = f' node d h sch.

(** The filter that throws when it is handed a node outside the
    document, and is [f] otherwise. *)
Definition attached_only (f : filter) : filter :=
  fun node d h sch =>
    if contains d node then f node d h sch else Throw TypeError.

(** ** isPlain *)

(** "Remove all BR nodes": every [br] element of the tree becomes the
    text node of a line feed. *)
Definition line_feed : string := String (ascii_of_nat 10) EmptyString.

Fixpoint replace_br (n : node) : node :=
  match n with
  | Element name attrs kids =>
      if String.eqb name "br" then Text line_feed
      else
        Element name attrs
          ((fix each (l : list node) : list node :=
              match l with
              | [] => []
              | k :: l' => replace_br k :: each l'
              end) kids)
  | _ => n
  end.

(** Adjacent text nodes of a child list merged, empty ones dropped. *)
Fixpoint merge_text (l : list node) : list node :=
  match l with
  | [] => []
  | Text a :: l' =>
      match merge_text l' with
      | Text b :: rest => Text (a +:+ b) :: rest
      | rest => if nonempty a then Text a :: rest else rest
      end
  | n :: l' => n :: merge_text l'
  end.

(** [node.normalize()] on a child list and everything below it. *)
Fixpoint normalize_node (n : node) : node :=
  match n with
  | Element name attrs kids =>
      Element name attrs
        (merge_text
           ((fix each (l : list node) : list node :=
               match l with
               | [] => []
               | k :: l' => normalize_node k :: each l'
               end) kids))
  | _ => n
  end.

Definition normalize (l : list node) : list node :=
  merge_text (map normalize_node l).

(** [isPlain( HTML )]. *)
Definition isPlain (HTML : string) : option bool :=
  match parseHTML HTML with
  | Some body =>
      Some match normalize (map replace_br body) with
           | [Text _] => true
           | _ => false
           end
  | None => None
  end.

(** ** The orchestrator *)

Fixpoint is_prefix (p s : string) : bool :=
  match p, s with
  | EmptyString, _ => true
  | String a p', String b s' => Ascii.eqb a b && is_prefix p' s'
  | String _ _, EmptyString => false
  end.

(** [s.indexOf( p ) !== -1]. *)
Fixpoint has_substring (p s : string) : bool :=
  is_prefix p s
  || match s with
     | EmptyString => false
     | String _ s' => has_substring p s'
     end.

Fixpoint drop_chars (n : nat) (s : string) : string :=
  match n, s with
  | S n', String _ s' => drop_chars n' s'
  | _, _ => s
  end.

(** After [<meta]: one or more characters other than [>], then [>];
    what follows the match. *)
Fixpoint after_meta_attributes (seen : bool) (s : string) : option string :=
  match s with
  | EmptyString => None
  | String c s' =>
      if Ascii.eqb c ">" then (if seen then Some s' else None)
      else after_meta_attributes true s'
  end.

(** [HTML.replace( /<meta[^>]+>/, '' )]: the first match is cut out. *)
Fixpoint strip_meta (s : string) : string :=
  match
    (if is_prefix "<meta" s then after_meta_attributes false (drop_chars 5 s)
     else None)
  with
  | Some rest => rest
  | None =>
      match s with
      | EmptyString => EmptyString
      | String c s' => String c (strip_meta s')
      end
  end.

(** What [rawHandler] returns: a string on the inline path, blocks
    otherwise. *)
Inductive outcome (B : Type) : Type :=
| InlineString (s : string)
| BlockList (blocks : list B).
Arguments InlineString {B} s.
Arguments BlockList {B} blocks.

Section Orchestrator.

(** The collaborators of [rawHandler] outside these sources: the grammar
    parser, the Markdown converter, the shortcode converter, the phrasing
    content reducer, and the block-mode tail of [rawHandler] itself
    (filters, sanitizer, [normaliseBlocks] and block creation for each
    piece), which stays abstract. *)
Variable B : Type.
Variable parseWithGrammar : string -> list B.
Variable convertMarkdown : string -> string.
Variable shortcodeConverter : string -> list (string + B).
Variable phrasingContentReducer : filter.
Variable blockMode : list (string + B) -> bool -> result (list B).
Variable querySelector : string -> node -> result bool.
Variable fuel : nat.

(** [filterInlineHTML( HTML )]. *)
Definition filterInlineHTML (HTML : string) : option (result string) :=
  match deepFilterHTML fuel HTML [phrasingContentReducer] [] None with
  | Some (Ok HTML1) =>
      let '(h, phrasing) := getPhrasingContentSchema [] in
      removeInvalidHTML querySelector h HTML1 phrasing true
  | other => other
  end.

Definition inline_outcome (r : option (result string))
  : option (result (outcome B)) :=
  match r with
  | Some (Ok s) => Some (Ok (InlineString s))
  | Some (Throw e) => Some (Throw e)
  | None => None
  end.

(** [rawHandler( { HTML, plainText, mode, tagName,
    canUserUseUnfilteredHTML } )]. *)
Definition rawHandler (HTML plainText mode : string)
    (tagName : option string) (canUserUseUnfilteredHTML : bool)
  : option (result (outcome B)) :=
  let HTML := strip_meta HTML in
  if negb (String.eqb mode "INLINE") && has_substring "<!-- wp:" HTML then
    Some (Ok (BlockList (parseWithGrammar HTML)))
  else
    match
      (if nonempty plainText then
         if negb (nonempty HTML) then Some true else isPlain HTML
       else Some false)
    with
    | None => None
    | Some markdown =>
        let HTML' := if markdown then convertMarkdown plainText else HTML in
        let mode' :=
          if markdown
             && String.eqb mode "AUTO"
             && negb (has_substring line_feed plainText)
             && negb (is_prefix "<p>" plainText)
             && is_prefix "<p>" HTML'
          then "INLINE" else mode in
        let pieces := shortcodeConverter HTML' in
        let hasShortcodes := Nat.ltb 1 (length pieces) in
        if String.eqb mode' "INLINE" then
          inline_outcome (filterInlineHTML HTML')
        else
          match
            (if String.eqb mode' "AUTO" && negb hasShortcodes
             then isInlineContent HTML' tagName else Some false)
          with
          | None => None
          | Some true => inline_outcome (filterInlineHTML HTML')
          | Some false =>
              match blockMode pieces canUserUseUnfilteredHTML with
              | Ok blocks => Some (Ok (BlockList blocks))
              | Throw e => Some (Throw e)
              end
          end
    end.

End Orchestrator.



(** ** What the sanitizer leaves *)

(** The line break that inline mode puts behind an unwrapped node. *)
Definition bare_br (n : node) : bool :=
  match n with
  | Element name [] [] => String.eqb name "br"
  | _ => false
  end.

(** The tokens of the [class] attribute. *)
Definition class_tokens (attrs : list (string * string)) : list string :=
  match getAttribute attrs "class" with
  | Some v => split_space v
  | None => []
  end.

(** A node as the schema allows it: it has an entry at its level; as an
    element it carries, besides [class], only attributes the entry lists,
    and only classes the entry lists; its child nodes stand under an
    entry with [children] and are allowed by them in turn.  With
    [br_too], a bare line break passes as well. *)
Fixpoint sanitized (br_too : bool) (h : heap) (sch : schema) (n : node)
    {struct n} : bool :=
  (br_too && bare_br n)
  || (let tag := toLowerCase (nodeName n) in
      (hasOwnProperty sch tag || hasOwnProperty sch (type_key (nodeType n)))
      && match n with
         | Element name attrs kids =>
             match get_entry h sch tag with
             | None => false
             | Some e =>
                 forallb
                   (fun a => String.eqb a.1 "class"
                             || includes (default [] (attributes e)) a.1)
                   attrs
                 && forallb (includes (default [] (classes e)))
                            (class_tokens attrs)
                 && match kids with
                    | [] => true
                    | _ :: _ =>
                        match children e with
                        | Some c =>
                            (fix all (l : list node) : bool :=
                               match l with
                               | [] => true
                               | k :: l' => sanitized br_too h c k && all l'
                               end) kids
                        | None => false
                        end
                    end
             end
         | _ => true
         end).

(** The text of a node, in document order. *)
Fixpoint texts (n : node) : list string :=
  match n with
  | Element _ _ kids =>
      (fix each (l : list node) : list string :=
         match l with
         | [] => []
         | k :: l' => texts k ++ each l'
         end) kids
  | Text data => [data]
  | Comment _ => []
  end.

(** No element that the phrasing schema lists without [children] ([br],
    and the key of the text node) has child nodes. *)
Fixpoint childless_voids (n : node) : bool :=
  match n with
  | Element name _ kids =>
      (if includes ["br"; type_key TEXT_NODE] (toLowerCase (toUpperCase name))
       then match kids with [] => true | _ :: _ => false end
       else true)
      && (fix all (l : list node) : bool :=
            match l with
            | [] => true
            | k :: l' => childless_voids k && all l'
            end) kids
  | _ => true
  end.

(** ** Reading aids for the classifiers *)

(** The text a body of text nodes and line breaks stands for, each line
    break a line feed. *)
Definition plain_text (body : list node) : string :=
  String.concat EmptyString
    (map (fun n => match n with Text data => data | _ => line_feed end) body).

Definition is_text (n : node) : bool :=
  match n with Text _ => true | _ => false end.

(** ** Reading aids for the parser and the serializer *)











(** The child list the tree builder is appending to, latest first. *)
Definition cur (b : builder) : list node :=
  match open_elements b with
  | [] => body_kids b
  | f :: _ => frame_kids f
  end.
















(* ================================================================== *)
(** * Part II: properties                                              *)
(* ================================================================== *)

Example phrasing_fresh :
  keys (snd (getPhrasingContentSchema [])) =
  ["3"; "strong"; "em"; "del"; "ins"; "a"; "code"; "abbr"; "sub"; "sup"; "br"].
Proof. reflexivity. Qed.

(** ** The phrasing content schema *)

Lemma own_shift b s k : own (shift b s) k = (fun l => b + l) <$> own s k.
Proof.
  induction s as [|[k' l] s IH]; simpl; [done|].
  destruct (String.eqb k' k); [done|apply IH].
Qed.

Lemma omit_shift b s k : omit (shift b s) k = shift b (omit s k).
Proof.
  unfold omit, shift. induction s as [|[k' l] s IH]; [done|].
  simpl. destruct (String.eqb k' k); simpl; by rewrite IH.
Qed.

Lemma own_omit s k t :
  own (omit s k) t = if String.eqb k t then None else own s t.
Proof.
  unfold omit. induction s as [|[k' l] s IH]; simpl.
  - by destruct (String.eqb k t).
  - destruct (String.eqb_spec k' k) as [->|Hk]; simpl.
    + rewrite IH. by destruct (String.eqb k t).
    + destruct (String.eqb_spec k' t) as [->|]; [|apply IH].
      by destruct (String.eqb_spec k t) as [->|].
Qed.

Lemma object_literal_shift h props :
  object_literal h props =
  (h ++ (object_literal [] props).1, shift (length h) (object_literal [] props).2).
Proof.
  revert h. induction props as [|[k e] props IH]; intros h; simpl.
  - by rewrite app_nil_r.
  - rewrite (IH (h ++ [e])), (IH [e]). simpl.
    rewrite <- app_assoc. simpl. f_equal. f_equal.
    + f_equal. lia.
    + unfold shift. rewrite map_map. apply map_ext. intros [k' l]; simpl.
      rewrite length_app. simpl. f_equal. lia.
Qed.

Lemma set_children_app (h es : heap) i c :
  set_children (h ++ es) (length h + i) c = h ++ set_children es i c.
Proof.
  unfold set_children. rewrite lookup_app_r by lia.
  replace (length h + i - length h) with i by lia.
  destruct (es !! i); [by rewrite insert_app_r|done].
Qed.

Lemma getPhrasingContentSchema_shift (h0 : heap) :
  getPhrasingContentSchema h0 =
  (h0 ++ map (shift_entry (length h0)) (getPhrasingContentSchema []).1,
   shift (length h0) (getPhrasingContentSchema []).2).
Proof.
  unfold getPhrasingContentSchema.
  rewrite object_literal_shift.
  change (type_key TEXT_NODE) with "3".
  set (b := length h0).
  set (sc := set_children).
  simpl. subst sc b.
  rewrite !set_children_app.
  reflexivity.
Qed.

Lemma get_entry_shift (h0 es : heap) c t :
  get_entry (h0 ++ map (shift_entry (length h0)) es) (shift (length h0) c) t =
  shift_entry (length h0) <$> get_entry es c t.
Proof.
  unfold get_entry. rewrite own_shift.
  destruct (own c t) as [l|]; simpl; [|done].
  rewrite lookup_app_r by lia.
  replace (length h0 + l - length h0) with l by lia.
  apply list_lookup_fmap.
Qed.

Lemma descend_shift (h0 es : heap) c path :
  descend (h0 ++ map (shift_entry (length h0)) es) (shift (length h0) c) path =
  shift (length h0) <$> descend es c path.
Proof.
  revert c. induction path as [|t path IH]; intros c; simpl; [done|].
  rewrite get_entry_shift.
  destruct (get_entry es c t) as [e|]; simpl; [|done].
  destruct (children e) as [c'|]; simpl; [apply IH|done].
Qed.

(** The entry a key of the fresh phrasing schema refers to. *)
Lemma phrasing_children_fresh t :
  let '(h, s) := getPhrasingContentSchema [] in
  (get_entry h s t ≫= children) =
  if includes nesting_tags t then Some (omit s t) else None.
Proof.
  set (r := getPhrasingContentSchema []). vm_compute in r. subst r.
  cbv beta iota.
  unfold get_entry, includes, nesting_tags.
  cbn [own existsb].
  repeat match goal with
  | |- context [String.eqb ?k t] =>
      destruct (String.eqb_spec k t) as [<-|?]; [vm_compute; reflexivity|]
  end.
  reflexivity.
Qed.

Lemma descend_fresh (prev : option string) (path : list string) :
  let '(h, s) := getPhrasingContentSchema [] in
  let cur (p : option string) :=
    match p with Some t => omit s t | None => s end in
  descend h (cur prev) path =
  if chain_ok nesting_tags prev path
  then Some (cur (match last path with Some t => Some t | None => prev end))
  else None.
Proof.
  pose proof phrasing_children_fresh as Hc.
  destruct (getPhrasingContentSchema []) as [h s]. cbv zeta.
  revert prev. induction path as [|t path IH]; intros prev; [done|].
  cbn [descend chain_ok]. specialize (Hc t).
  assert (Hprev : get_entry h (match prev with Some p => omit s p | None => s end) t =
                  match prev with
                  | Some p => if String.eqb p t then None else get_entry h s t
                  | None => get_entry h s t
                  end).
  { destruct prev as [p|]; [|done]. unfold get_entry. rewrite own_omit.
    by destruct (String.eqb p t). }
  rewrite Hprev. clear Hprev.
  destruct (includes nesting_tags t) eqn:Hin; simpl.
  - destruct prev as [p|]; simpl.
    + destruct (String.eqb p t); simpl; [done|].
      destruct (get_entry h s t) as [e|]; simpl in Hc; [|done].
      rewrite Hc. rewrite (IH (Some t)).
      destruct (chain_ok nesting_tags (Some t) path); [|done].
      rewrite last_cons. by destruct (last path).
    + destruct (get_entry h s t) as [e|]; simpl in Hc; [|done].
      rewrite Hc. rewrite (IH (Some t)).
      destruct (chain_ok nesting_tags (Some t) path); [|done].
      rewrite last_cons. by destruct (last path).
  - destruct prev as [p|]; [destruct (String.eqb p t); [done|]|];
      destruct (get_entry h s t) as [e|]; simpl in Hc; try done;
      by rewrite Hc.
Qed.

(** C9.  In the schema [getPhrasingContentSchema] returns, the entry of
    each of the nine tags [strong], [em], [del], [ins], [a], [code],
    [abbr], [sub], [sup] has for [children] the top-level schema less
    that tag, and no other key has an entry with [children], [br] and
    the text node among them.  So following a chain of tags down the
    [children] fields succeeds exactly when every tag is one of the nine
    and no tag directly follows itself, at any depth, and then ends in
    the top-level schema less the last tag; the keys of that schema are
    the phrasing keys except the tag, and its entries are the objects of
    the top level. *)
Theorem phrasing_schema_nesting (h0 : heap) (path : list string) (t k : string) :
  let '(h, s) := getPhrasingContentSchema h0 in
  keys s = ["3"; "strong"; "em"; "del"; "ins"; "a"; "code"; "abbr"; "sub";
            "sup"; "br"]
  /\ (get_entry h s t ≫= children) =
     (if includes ["strong"; "em"; "del"; "ins"; "a"; "code"; "abbr"; "sub";
                   "sup"] t
      then Some (omit s t) else None)
  /\ descend h s path =
     (if chain_ok ["strong"; "em"; "del"; "ins"; "a"; "code"; "abbr"; "sub";
                   "sup"] None path
      then Some (omit_last s path) else None)
  /\ keys (omit s t) = List.filter (fun k' => negb (String.eqb k' t)) (keys s)
  /\ get_entry h (omit s t) k =
     (if String.eqb t k then None else get_entry h s k)
  /\ (children <$> get_entry h s "br") = Some None
  /\ (children <$> get_entry h s (type_key TEXT_NODE)) = Some None.
Proof.
  change ["strong"; "em"; "del"; "ins"; "a"; "code"; "abbr"; "sub"; "sup"]
    with nesting_tags.
  rewrite getPhrasingContentSchema_shift.
  pose proof (descend_fresh None path) as Hd.
  pose proof (phrasing_children_fresh t) as Hc.
  destruct (getPhrasingContentSchema []) as [h s] eqn:E. cbn [fst snd].
  split_and!.
  - injection E as _ <-. reflexivity.
  - rewrite get_entry_shift.
    destruct (get_entry h s t) as [e|]; cbn [fmap option_fmap option_map mbind option_bind] in *.
    + unfold shift_entry. cbn [children]. rewrite Hc.
      destruct (includes nesting_tags t); [|done].
      cbn. by rewrite omit_shift.
    + by destruct (includes nesting_tags t).
  - rewrite descend_shift, Hd. destruct (chain_ok nesting_tags None path); [|done].
    simpl. unfold omit_last. destruct (last path); [|done].
    by rewrite omit_shift.
  - unfold omit, keys. induction (shift (length h0) s) as [|[k' l] s' IH];
      [done|]. simpl. destruct (String.eqb k' t); simpl; by rewrite IH.
  - unfold get_entry. rewrite own_omit. by destruct (String.eqb t k).
  - rewrite get_entry_shift. injection E as <- <-. reflexivity.
  - rewrite get_entry_shift. injection E as <- <-. reflexivity.
Qed.

Example parse_sample :
  parseHTML ("<p><strong>test<img class=" +:+ dq +:+ "one" +:+ dq
             +:+ "></strong><img CLASS='two' alt></p>") =
  Some [Element "p" []
          [Element "strong" [] [Text "test"; Element "img" [("class", "one")] []];
           Element "img" [("class", "two"); ("alt", EmptyString)] []]].
Proof. vm_compute. reflexivity. Qed.

Example parse_outside_fragment :
  parseHTML "<p>a &lt; b</p>" = None /\ parseHTML "<p><div>a</div></p>" = None.
Proof. vm_compute. done. Qed.

Example serialize_sample :
  innerHTML <$> parseHTML "<p><strong>a > b<img class=one></strong><br></p>" =
  Some ("<p><strong>a &gt; b<img class=" +:+ dq +:+ "one" +:+ dq
        +:+ "></strong><br></p>").
Proof. vm_compute. reflexivity. Qed.


(** ** Inline classification *)

Lemma is_br_nodeName n : is_br n = true -> String.eqb (nodeName n) "BR" = true.
Proof.
  destruct n as [name a k| |]; simpl; try done.
  intros H. apply String.eqb_eq in H. by subst.
Qed.

Lemma adjacent_br_isDoubleBR (prev : option node) (l : list node) :
  adjacent_br l = true ->
  existsb (fun pn => isDoubleBR pn.1 pn.2) (children_with_previous prev l) = true.
Proof.
  revert prev. induction l as [|a l IH]; intros prev H; [done|].
  cbn [adjacent_br] in H. destruct l as [|b l]; [done|].
  cbn [children_with_previous]. rewrite existsb_app.
  apply orb_true_iff. right.
  apply orb_true_iff in H as [H|H].
  - apply andb_true_iff in H as [Ha Hb].
    cbn [children_with_previous].
    assert (is_element b = true) as -> by (by destruct b).
    simpl. unfold isDoubleBR. simpl.
    by rewrite (is_br_nodeName _ Ha), (is_br_nodeName _ Hb).
  - by apply IH.
Qed.

Example inline_samples :
  isInlineContent "<strong>a</strong><em>b</em>" None = Some true
  /\ isInlineContent "<p>a</p><p>b</p>" None = Some false
  /\ isInlineContentOf [Element "li" [] [Text "a"]] (Some "ul") = true
  /\ isInlineContentOf [Element "li" [] [Text "a"]] None = false.
Proof. vm_compute. done. Qed.

(** C6, as the code has it.  When the parsed body has, among its own
    child nodes, a line-break element whose previous sibling is a
    line-break element, [isInlineContent] answers false for every context
    tag. *)
Theorem double_br_top_level_not_inline
    (HTML : string) (body : list node) (tagName : option string) :
  parseHTML HTML = Some body ->
  adjacent_br body = true ->
  isInlineContent HTML tagName = Some false.
Proof.
  intros Hp Hbr. unfold isInlineContent. rewrite Hp. f_equal.
  unfold isInlineContentOf.
  by rewrite (adjacent_br_isDoubleBR None body Hbr).
Qed.

(** The literal case of C6: [isInlineContent( 'a<br><br>b', null )]. *)
Lemma double_br_top_level_not_inline_witness :
  isInlineContent "a<br><br>b" None = Some false.
Proof.
  apply (double_br_top_level_not_inline "a<br><br>b"
           [Text "a"; Element "br" [] []; Element "br" [] []; Text "b"]).
  - reflexivity.
  - reflexivity.
Defined.

(** C6 fails below the top level: inside [strong] a line break follows a
    line break, and the fragment is classified as inline. *)
Lemma double_br_nested_is_inline :
  parseHTML "<strong>a<br><br>b</strong>" =
    Some [Element "strong" []
            [Text "a"; Element "br" [] []; Element "br" [] []; Text "b"]]
  /\ adjacent_br_deep
       [Element "strong" []
          [Text "a"; Element "br" [] []; Element "br" [] []; Text "b"]] = true
  /\ isInlineContent "<strong>a<br><br>b</strong>" None = Some true.
Proof. vm_compute. done. Qed.


(** ** The sanitizer *)

Example clean_sample :
  removeInvalidHTML type_selectors
    [Entry None None (Some [("3", 1)]) None; empty_entry]
    "<div><p id=x class='a b'>one<i>two</i></p><span>three</span></div>"
    [("p", 0)] false
  = Some (Ok "<p>onetwo</p>").
Proof. vm_compute. reflexivity. Qed.

(** *** Attribute and class stripping settle after one application *)


Lemma forallb_filter_same {A} (p : A -> bool) (l : list A) :
  forallb p (List.filter p l) = true.
Proof.
  induction l as [|a l IH]; simpl; [done|].
  destruct (p a) eqn:E; simpl; [by rewrite E|done].
Qed.

Lemma forallb_filter_other {A} (p q : A -> bool) (l : list A) :
  forallb p l = true -> forallb p (List.filter q l) = true.
Proof.
  induction l as [|a l IH]; simpl; [done|].
  intros [Ha Hl]%andb_true_iff.
  destruct (q a); simpl; [rewrite Ha|]; by apply IH.
Qed.

Lemma split_space_space_free s : forallb space_free (split_space s) = true.
Proof.
  induction s as [|c s IH]; simpl; [done|].
  destruct (Ascii.eqb c " ") eqn:E; simpl; [done|].
  destruct (split_space s) as [|w ws]; unfold space_free in *; simpl in *;
    rewrite E; simpl; [done|exact IH].
Qed.

Lemma split_space_word w : space_free w = true -> split_space w = [w].
Proof.
  induction w as [|c w IH]; simpl; [done|].
  unfold space_free. simpl. intros [Hc Hw]%andb_true_iff.
  apply negb_true_iff in Hc. rewrite Hc. by rewrite IH.
Qed.

Lemma split_space_append w s :
  space_free w = true ->
  split_space (w +:+ " " +:+ s) = w :: split_space s.
Proof.
  induction w as [|c w IH]; simpl; [done|].
  unfold space_free. simpl. intros [Hc Hw]%andb_true_iff.
  apply negb_true_iff in Hc. rewrite Hc. by rewrite IH.
Qed.

Lemma split_space_join ws :
  ws <> [] -> forallb space_free ws = true ->
  split_space (join " " ws) = ws.
Proof.
  induction ws as [|w ws IH]; [done|]. intros _.
  simpl. intros [Hw Hws]%andb_true_iff.
  destruct ws as [|w2 ws]; [by apply split_space_word|].
  rewrite split_space_append by done. f_equal. by apply IH.
Qed.

Lemma getAttribute_setAttribute attrs k v :
  getAttribute (setAttribute attrs k v) k = Some v.
Proof.
  induction attrs as [|[k' v'] attrs IH]; simpl.
  - by rewrite String.eqb_refl.
  - destruct (String.eqb k' k) eqn:E; simpl; by rewrite E.
Qed.


Lemma getAttribute_removeAttribute attrs k :
  getAttribute (removeAttribute attrs k) k = None.
Proof.
  unfold removeAttribute.
  induction attrs as [|[k' v'] attrs IH]; simpl; [done|].
  destruct (String.eqb k' k) eqn:E; simpl; [done|by rewrite E].
Qed.


Lemma join_nonempty ws :
  ws <> [] -> forallb nonempty ws = true -> nonempty (join " " ws) = true.
Proof.
  destruct ws as [|w ws]; [done|]. intros _. simpl.
  intros [Hw _]%andb_true_iff. destruct w; [done|]. by destruct ws.
Qed.


Lemma forallb_setAttribute (p : string * string -> bool) attrs k v :
  p (k, v) = true -> (forall v', p (k, v') = true) ->
  forallb p attrs = true -> forallb p (setAttribute attrs k v) = true.
Proof.
  intros Hk Hk'. induction attrs as [|[k' v'] attrs IH]; simpl.
  - by rewrite Hk.
  - intros [Ha Hl]%andb_true_iff.
    destruct (String.eqb_spec k' k) as [->|]; simpl.
    + by rewrite Hk, Hl.
    + by rewrite Ha, IH.
Qed.



Lemma node_ind_nested (P : node -> Prop) :
  (forall name attrs kids, Forall P kids -> P (Element name attrs kids)) ->
  (forall data, P (Text data)) ->
  (forall data, P (Comment data)) ->
  forall n, P n.
Proof.
  intros HE HT HC.
  fix IH 1. intros [name attrs kids|d|d]; [|apply HT|apply HC].
  apply HE. induction kids as [|k kids IHk]; constructor; [apply IH|apply IHk].
Qed.

Section SanitizerFacts.

Variable querySelector : string -> node -> result bool.
Variable h : heap.


Lemma cleanNodeList_nil sch inline : cleanNodeList querySelector h sch inline [] = Ok [].
Proof. reflexivity. Qed.

Lemma cleanNodeList_cons sch inline x l :
  cleanNodeList querySelector h sch inline (x :: l) =
  (r <~ cleanNode querySelector h sch inline l x ;;
   rs <~ cleanNodeList querySelector h sch inline l ;;
   Ok (r ++ rs)).
Proof. reflexivity. Qed.

Lemma cleanNode_invalid sch inline following n :
  hasOwnProperty sch (toLowerCase (nodeName n))
  || hasOwnProperty sch (type_key (nodeType n)) = false ->
  cleanNode querySelector h sch inline following n =
  (kids' <~ cleanNodeList querySelector h sch inline (childNodes_of n) ;;
   Ok (kids' ++
       if inline && negb (isPhrasingContent n)
          && bool_decide (is_Some (nextElementSibling following))
       then [Element "br" [] []]
       else [])).
Proof.
  intros Hv.
  destruct n as [name attrs kids|d|d];
    cbn [cleanNode nodeName nodeType childNodes_of] in *; rewrite Hv.
  - fold (cleanNodeList querySelector h sch inline kids).
    destruct (cleanNodeList querySelector h sch inline kids) as [kids'|e];
      cbn [bind unwrap insertAfter childNodes_of]; [|done].
    destruct (inline && _ && _); by rewrite ?app_nil_r.
  - cbn [bind unwrap insertAfter childNodes_of cleanNodeList].
    by destruct (inline && _ && _).
  - cbn [bind unwrap insertAfter childNodes_of cleanNodeList].
    by destruct (inline && _ && _).
Qed.

Lemma cleanNode_valid_element sch inline following name attrs kids :
  hasOwnProperty sch (toLowerCase (toUpperCase name))
  || hasOwnProperty sch (type_key ELEMENT_NODE) = true ->
  cleanNode querySelector h sch inline following (Element name attrs kids) =
  match get_entry h sch (toLowerCase (toUpperCase name)) with
  | None => Throw TypeError
  | Some e =>
      if isEmpty (Element name attrs kids)
         && bool_decide (is_Some (children e)) then Ok []
      else
        let attrs2 :=
          strip_classes (default [] (classes e))
            (strip_attributes (default [] (attributes e)) attrs) in
        match kids with
        | [] => Ok [Element name attrs2 []]
        | first :: _ =>
            match children e with
            | Some c =>
                missing <~
                  match default [] (require e) with
                  | [] => Ok false
                  | _ :: _ =>
                      found <~ querySelector (join "," (default [] (require e)))
                                             (Element name attrs2 kids) ;;
                      Ok (negb found)
                  end ;;
                if (missing : bool) then cleanNodeList querySelector h sch inline kids
                else
                  kids' <~ cleanNodeList querySelector h c inline kids ;;
                  Ok [Element name attrs2 kids']
            | None => removeNode (Element name attrs2 kids) first
            end
        end
  end.
Proof.
  intros Hv. cbn [cleanNode nodeName nodeType]. rewrite Hv.
  destruct (get_entry h sch (toLowerCase (toUpperCase name))) as [e|]; [|done].
  destruct (isEmpty _ && _); [done|]. cbv zeta.
  destruct kids as [|first kids]; [done|].
  destruct (children e) as [c|]; [|done].
  match goal with
  | |- bind ?m _ = bind ?m _ => destruct m as [[|]|]; cbn [bind]; try done
  end.
  fold (cleanNodeList querySelector h sch inline (first :: kids)).
  by destruct (cleanNodeList querySelector h sch inline (first :: kids)).
Qed.


Lemma bind_Ok {A B} (m : result A) (k : A -> result B) (b : B) :
  bind m k = Ok b -> exists a, m = Ok a /\ k a = Ok b.
Proof. destruct m as [a|e]; simpl; [eauto|done]. Qed.






End SanitizerFacts.

(** ** The host's parser reads back what its serializer writes *)


Lemma append_cons c s t : String c s +:+ t = String c (s +:+ t).
Proof. reflexivity. Qed.















Lemma append_empty_r (s : string) : s +:+ EmptyString = s.
Proof.
  induction s as [|c s IH]; [done|]. rewrite append_cons. by rewrite IH.
Qed.


























Lemma nonempty_append a b : nonempty (a +:+ b) = nonempty a || nonempty b.
Proof. by destruct a. Qed.





Lemma merge_text_element name attrs kids M :
  merge_text (Element name attrs kids :: M)
  = Element name attrs kids :: merge_text M.
Proof. reflexivity. Qed.



































Section SanitizerShape.

Variable querySelector : string -> node -> result bool.
Variable h : heap.











End SanitizerShape.

(** The sanitizer returns what the schema allows. *)
Lemma sanitized_element br_too h sch name attrs kids :
  sanitized br_too h sch (Element name attrs kids) =
  (br_too && bare_br (Element name attrs kids))
  || ((hasOwnProperty sch (toLowerCase (toUpperCase name))
       || hasOwnProperty sch (type_key ELEMENT_NODE))
      && match get_entry h sch (toLowerCase (toUpperCase name)) with
         | None => false
         | Some e =>
             forallb
               (fun a => String.eqb a.1 "class"
                         || includes (default [] (attributes e)) a.1)
               attrs
             && forallb (includes (default [] (classes e)))
                        (class_tokens attrs)
             && match kids with
                | [] => true
                | _ :: _ =>
                    match children e with
                    | Some c => forallb (sanitized br_too h c) kids
                    | None => false
                    end
                end
         end).
Proof. reflexivity. Qed.

Lemma stripped_attributes_listed attributes classes attrs :
  forallb (fun a : string * string =>
             String.eqb a.1 "class" || includes attributes a.1)
          (strip_classes classes (strip_attributes attributes attrs)) = true.
Proof.
  set (p := fun a : string * string =>
              String.eqb a.1 "class" || includes attributes a.1).
  assert (Hx : forallb p (strip_attributes attributes attrs) = true)
    by apply forallb_filter_same.
  revert Hx. generalize (strip_attributes attributes attrs). intros X HX.
  unfold strip_classes.
  match goal with |- context [if ?b then _ else _] => destruct b end.
  - by apply forallb_setAttribute.
  - by apply forallb_filter_other.
Qed.

Lemma stripped_classes_listed classes attrs :
  forallb (includes classes) (class_tokens (strip_classes classes attrs)) = true.
Proof.
  unfold strip_classes.
  set (p := fun name => nonempty name && includes classes name).
  set (ws := List.filter p (split_space (default EmptyString (getAttribute attrs "class")))).
  unfold class_tokens.
  destruct (nonempty (join " " ws)) eqn:En.
  - rewrite getAttribute_setAttribute.
    assert (Hne : ws <> []) by (by destruct ws).
    rewrite split_space_join;
      [|done|by apply forallb_filter_other, split_space_space_free].
    pose proof (forallb_filter_same p
                  (split_space (default EmptyString (getAttribute attrs "class"))))
      as Hp.
    fold ws in Hp. clear -Hp. induction ws as [|w ws IH]; [done|].
    simpl in *. apply andb_true_iff in Hp as [Hw Hws].
    apply andb_true_iff in Hw as [_ Hw]. by rewrite Hw, IH.
  - by rewrite getAttribute_removeAttribute.
Qed.

Section SanitizerOutput.

Variable querySelector : string -> node -> result bool.
Variable h : heap.

Lemma cleaned_sanitized n :
  forall sch inline following r,
    cleanNode querySelector h sch inline following n = Ok r ->
    forallb (sanitized inline h sch) r = true.
Proof.
  induction n as [name attrs kids IH|d|d] using node_ind_nested;
    intros sch inline following r Hc.
  - assert (Hlist : forall sch r,
              cleanNodeList querySelector h sch inline kids = Ok r ->
              forallb (sanitized inline h sch) r = true).
    { clear Hc sch r. induction kids as [|x l IHl]; intros sch r Hc.
      - by injection Hc as <-.
      - rewrite cleanNodeList_cons in Hc.
        apply bind_Ok in Hc as (r1 & H1 & Hc).
        apply bind_Ok in Hc as (r2 & H2 & Hc).
        injection Hc as <-.
        inversion IH as [|? ? HPx HPl]; subst.
        rewrite forallb_app, (HPx _ _ _ _ H1). cbn [andb].
        by apply (IHl HPl sch r2). }
    destruct (hasOwnProperty sch (toLowerCase (toUpperCase name))
              || hasOwnProperty sch (type_key ELEMENT_NODE)) eqn:Hv.
    + rewrite cleanNode_valid_element in Hc by done.
      destruct (get_entry h sch (toLowerCase (toUpperCase name)))
        as [e|] eqn:He; [|done].
      destruct (isEmpty _ && _); [by injection Hc as <-|].
      cbv zeta in Hc.
      destruct kids as [|k0 kids'].
      * injection Hc as <-. cbn [forallb]. rewrite andb_true_r.
        rewrite sanitized_element, Hv, He.
        rewrite stripped_attributes_listed, stripped_classes_listed.
        cbn [andb]. apply orb_true_r.
      * destruct (children e) as [c|] eqn:Hch; [|done].
        apply bind_Ok in Hc as (missing & Hm & Hc).
        destruct missing; [by apply (Hlist sch r)|].
        apply bind_Ok in Hc as (kids2 & Hk2 & Hc).
        injection Hc as <-. cbn [forallb]. rewrite andb_true_r.
        rewrite sanitized_element, Hv, He.
        rewrite stripped_attributes_listed, stripped_classes_listed, Hch.
        rewrite (Hlist c kids2 Hk2). cbn [andb].
        destruct kids2; cbn [andb]; apply orb_true_r.
    + rewrite cleanNode_invalid in Hc by done.
      apply bind_Ok in Hc as (kids2 & Hk2 & Hc). injection Hc as <-.
      rewrite forallb_app, (Hlist sch kids2 Hk2). cbn [andb].
      destruct inline; [|done].
      by destruct (true && _ && _).
  - destruct (hasOwnProperty sch (toLowerCase (nodeName (Text d)))
              || hasOwnProperty sch (type_key (nodeType (Text d)))) eqn:Hv.
    + cbn [cleanNode nodeName nodeType] in Hc, Hv. rewrite Hv in Hc.
      injection Hc as <-. cbn [forallb sanitized nodeName nodeType bare_br].
      by rewrite Hv, andb_false_r.
    + rewrite cleanNode_invalid in Hc by done.
      cbn [childNodes_of bind app] in Hc. rewrite cleanNodeList_nil in Hc.
      cbn [bind app] in Hc. injection Hc as <-.
      destruct inline; [|done]. by destruct (true && _ && _).
  - destruct (hasOwnProperty sch (toLowerCase (nodeName (Comment d)))
              || hasOwnProperty sch (type_key (nodeType (Comment d)))) eqn:Hv.
    + cbn [cleanNode nodeName nodeType] in Hc, Hv. rewrite Hv in Hc.
      injection Hc as <-. cbn [forallb sanitized nodeName nodeType bare_br].
      by rewrite Hv, andb_false_r.
    + rewrite cleanNode_invalid in Hc by done.
      cbn [childNodes_of bind app] in Hc. rewrite cleanNodeList_nil in Hc.
      cbn [bind app] in Hc. injection Hc as <-.
      destruct inline; [|done]. by destruct (true && _ && _).
Qed.

End SanitizerOutput.








Section SanitizerLeftover.

Variable querySelector : string -> node -> result bool.
Variable h : heap.










End SanitizerLeftover.

Section SanitizerFixed.

Variable querySelector : string -> node -> result bool.
Variable h : heap.



End SanitizerFixed.







(** The childless branch of [cleanNodeList] calls [node.removeNode]. *)
Lemma childless_entry_throws
    (querySelector : string -> node -> result bool) (h : heap)
    (sch : schema) (inline : bool) (following : list node)
    (name : string) (attrs : list (string * string))
    (first : node) (kids : list node) (e : entry) :
  hasOwnProperty sch (toLowerCase (toUpperCase name)) = true ->
  get_entry h sch (toLowerCase (toUpperCase name)) = Some e ->
  children e = None ->
  cleanNode querySelector h sch inline following
            (Element name attrs (first :: kids)) = Throw TypeError.
Proof.
  intros Hv He Hc.
  rewrite cleanNode_valid_element by (by rewrite Hv).
  rewrite He, Hc. rewrite andb_false_r. reflexivity.
Qed.

(** C5 at a concrete input: under [{ strong: {} }] the sanitizer does not
    strip the text inside [<strong>a</strong>] but throws. *)
Theorem childless_entry_strip_throws :
  removeInvalidHTML type_selectors [empty_entry] "<strong>a</strong>"
                    [("strong", 0)] false
  = Some (Throw TypeError).
Proof. vm_compute. reflexivity. Qed.

Lemma texts_element name attrs kids :
  texts (Element name attrs kids) = flat_map texts kids.
Proof.
  cbn [texts]. induction kids as [|k l IH]; [done|]. cbn [flat_map].
  by rewrite IH.
Qed.

Section SanitizerText.

Variable querySelector : string -> node -> result bool.
Variable h : heap.

Lemma cleaned_texts n :
  forall sch inline following r,
    cleanNode querySelector h sch inline following n = Ok r ->
    sublist (flat_map texts r) (texts n).
Proof.
  induction n as [name attrs kids IH|d|d] using node_ind_nested;
    intros sch inline following r Hc.
  - assert (Hlist : forall sch r,
              cleanNodeList querySelector h sch inline kids = Ok r ->
              sublist (flat_map texts r) (flat_map texts kids)).
    { clear Hc sch r. induction kids as [|x l IHl]; intros sch r Hc.
      - by injection Hc as <-.
      - rewrite cleanNodeList_cons in Hc.
        apply bind_Ok in Hc as (r1 & H1 & Hc).
        apply bind_Ok in Hc as (r2 & H2 & Hc).
        injection Hc as <-.
        inversion IH as [|? ? HPx HPl]; subst.
        rewrite flat_map_app. cbn [flat_map].
        apply sublist_app; [by eapply HPx|by eapply IHl]. }
    rewrite texts_element.
    destruct (hasOwnProperty sch (toLowerCase (toUpperCase name))
              || hasOwnProperty sch (type_key ELEMENT_NODE)) eqn:Hv.
    + rewrite cleanNode_valid_element in Hc by done.
      destruct (get_entry h sch (toLowerCase (toUpperCase name)))
        as [e|] eqn:He; [|done].
      destruct (isEmpty _ && _);
        [injection Hc as <-; apply sublist_nil_l|].
      cbv zeta in Hc.
      destruct kids as [|k0 kids'].
      * injection Hc as <-. done.
      * destruct (children e) as [c|] eqn:Hch; [|done].
        apply bind_Ok in Hc as (missing & Hm & Hc).
        destruct missing; [by apply (Hlist sch r)|].
        apply bind_Ok in Hc as (kids2 & Hk2 & Hc).
        injection Hc as <-. cbn [flat_map]. rewrite app_nil_r, texts_element.
        by apply (Hlist c).
    + rewrite cleanNode_invalid in Hc by done.
      apply bind_Ok in Hc as (kids2 & Hk2 & Hc). injection Hc as <-.
      rewrite flat_map_app.
      replace (flat_map texts (if inline && negb (isPhrasingContent
                 (Element name attrs kids))
                 && bool_decide (is_Some (nextElementSibling following))
               then [Element "br" [] []] else [])) with (@nil string)
        by (by destruct (inline && _ && _)).
      rewrite app_nil_r. by apply (Hlist sch).
  - destruct (hasOwnProperty sch (toLowerCase (nodeName (Text d)))
              || hasOwnProperty sch (type_key (nodeType (Text d)))) eqn:Hv.
    + cbn [cleanNode nodeName nodeType] in Hc, Hv. rewrite Hv in Hc.
      by injection Hc as <-.
    + rewrite cleanNode_invalid in Hc by done.
      cbn [childNodes_of bind app] in Hc. rewrite cleanNodeList_nil in Hc.
      cbn [bind app] in Hc. injection Hc as <-.
      destruct (inline && _ && _); cbn; apply sublist_nil_l.
  - destruct (hasOwnProperty sch (toLowerCase (nodeName (Comment d)))
              || hasOwnProperty sch (type_key (nodeType (Comment d)))) eqn:Hv.
    + cbn [cleanNode nodeName nodeType] in Hc, Hv. rewrite Hv in Hc.
      by injection Hc as <-.
    + rewrite cleanNode_invalid in Hc by done.
      cbn [childNodes_of bind app] in Hc. rewrite cleanNodeList_nil in Hc.
      cbn [bind app] in Hc. injection Hc as <-.
      destruct (inline && _ && _); cbn; apply sublist_nil_l.
Qed.

End SanitizerText.

Section SanitizerSalvage.

Variable querySelector : string -> node -> result bool.
Variable h : heap.

Lemma cleaned_list_texts l :
  forall sch inline r,
    cleanNodeList querySelector h sch inline l = Ok r ->
    sublist (flat_map texts r) (flat_map texts l).
Proof.
  induction l as [|x l IH]; intros sch inline r Hc.
  - by injection Hc as <-.
  - rewrite cleanNodeList_cons in Hc.
    apply bind_Ok in Hc as (r1 & H1 & Hc).
    apply bind_Ok in Hc as (r2 & H2 & Hc).
    injection Hc as <-.
    rewrite flat_map_app. cbn [flat_map].
    apply sublist_app; [by eapply cleaned_texts|by eapply IH].
Qed.

(** Where the level allows text nodes, the text nodes of a child list
    are all in what the sanitizer makes of the list, in order. *)
Lemma cleaned_list_keeps_text l :
  forall sch inline r,
    hasOwnProperty sch (type_key TEXT_NODE) = true ->
    cleanNodeList querySelector h sch inline l = Ok r ->
    sublist (List.filter is_text l) r.
Proof.
  induction l as [|x l IH]; intros sch inline r Ht Hc.
  - by injection Hc as <-.
  - rewrite cleanNodeList_cons in Hc.
    apply bind_Ok in Hc as (r1 & H1 & Hc).
    apply bind_Ok in Hc as (r2 & H2 & Hc).
    injection Hc as <-. specialize (IH sch inline r2 Ht H2).
    destruct x as [name attrs kids|d|d]; cbn [List.filter is_text].
    + by apply sublist_inserts_l.
    + cbn [cleanNode nodeName nodeType] in H1. rewrite Ht, orb_true_r in H1.
      injection H1 as <-. by apply sublist_skip.
    + by apply sublist_inserts_l.
Qed.

End SanitizerSalvage.

(** C4, as the code has it.  An element that is valid, has child nodes,
    is not structurally empty, and whose entry has [children] and a
    [require] list no selector of which matches a descendant, is replaced
    by what the sanitizer makes of its child nodes at the schema of its
    own level.  The text nodes of that result are text nodes of the
    element, in order, and where that level allows text nodes every text
    child of the element is in the result, in order. *)
Theorem require_failure_unwraps
    (querySelector : string -> node -> result bool) (h : heap)
    (sch : schema) (inline : bool) (following : list node)
    (name : string) (attrs : list (string * string))
    (first : node) (kids : list node)
    (e : entry) (c : schema) (r : string) (rs : list string) :
  hasOwnProperty sch (toLowerCase (toUpperCase name)) = true ->
  get_entry h sch (toLowerCase (toUpperCase name)) = Some e ->
  children e = Some c ->
  require e = Some (r :: rs) ->
  isEmpty (Element name attrs (first :: kids)) = false ->
  querySelector (join "," (r :: rs))
    (Element name
       (strip_classes (default [] (classes e))
          (strip_attributes (default [] (attributes e)) attrs))
       (first :: kids)) = Ok false ->
  cleanNode querySelector h sch inline following
            (Element name attrs (first :: kids))
  = cleanNodeList querySelector h sch inline (first :: kids)
  /\ forall out,
       cleanNode querySelector h sch inline following
                 (Element name attrs (first :: kids)) = Ok out ->
       sublist (flat_map texts out) (texts (Element name attrs (first :: kids)))
       /\ (hasOwnProperty sch (type_key TEXT_NODE) = true ->
           sublist (List.filter is_text (first :: kids)) out).
Proof.
  intros Hv He Hc Hr Hem Hq.
  assert (Heq : cleanNode querySelector h sch inline following
                  (Element name attrs (first :: kids))
                = cleanNodeList querySelector h sch inline (first :: kids)).
  { rewrite cleanNode_valid_element by (by rewrite Hv).
    rewrite He, Hem, Hc, Hr. cbn [andb default from_option id bind].
    cbv zeta. rewrite Hq. reflexivity. }
  split; [done|]. intros out Hout. rewrite Heq in Hout. split.
  - rewrite texts_element. by eapply cleaned_list_texts.
  - intros Ht. by eapply cleaned_list_keeps_text.
Qed.

Lemma require_failure_unwraps_witness :
  cleanNode type_selectors
    [Entry None None (Some [("img", 1)]) (Some ["img"]); empty_entry;
     Entry None None (Some [("3", 1)]) None]
    [("figure", 0); ("em", 2); ("3", 1)] false []
    (Element "figure" [] [Element "em" [] [Text "a"]; Text "b"])
  = Ok [Element "em" [] [Text "a"]; Text "b"]
  /\ sublist [Text "b"] [Element "em" [] [Text "a"]; Text "b"].
Proof.
  destruct (require_failure_unwraps type_selectors
              [Entry None None (Some [("img", 1)]) (Some ["img"]); empty_entry;
               Entry None None (Some [("3", 1)]) None]
              [("figure", 0); ("em", 2); ("3", 1)] false [] "figure" []
              (Element "em" [] [Text "a"]) [Text "b"]
              (Entry None None (Some [("img", 1)]) (Some ["img"]))
              [("img", 1)] "img" []) as [Heq Hout]; try reflexivity.
  split.
  - rewrite Heq. reflexivity.
  - apply (Hout [Element "em" [] [Text "a"]; Text "b"]); reflexivity.
Defined.

(** C4 fails as stated: a [figure] that requires an [img] and holds only
    a line break is structurally empty and is removed together with the
    line break, which the schema allows at that level.  And where the
    [figure] is unwrapped, a child element with an entry at that level can
    be lost all the same: the empty [em] is removed by the recursion. *)
Lemma require_failure_removed_outright :
  let h := [Entry None None (Some [("img", 1)]) (Some ["img"]); empty_entry;
            empty_entry] in
  let sch := [("figure", 0); ("br", 2)] in
  let figure := Element "figure" [] [Element "br" [] []] in
  let h2 := [Entry None None (Some [("img", 1)]) (Some ["img"]); empty_entry;
             Entry None None (Some [("3", 1)]) None] in
  let sch2 := [("figure", 0); ("em", 2); ("3", 1)] in
  type_selectors "img" figure = Ok false
  /\ cleanNodeList type_selectors h sch false [figure] = Ok []
  /\ cleanNodeList type_selectors h sch false (childNodes_of figure)
     = Ok [Element "br" [] []]
  /\ removeInvalidHTML type_selectors h "<figure><br></figure>" sch false
     = Some (Ok EmptyString)
  /\ hasOwnProperty sch2 "em" = true
  /\ removeInvalidHTML type_selectors h2 "<figure><em></em>x</figure>" sch2
                       false
     = Some (Ok "x").
Proof. vm_compute. done. Qed.


(** ** Block content schema *)

Example compose_sample :
  let h := [ Entry (Some ["src"]) None None None;
             Entry None (Some ["wide"]) (Some [("img", 0)]) (Some ["img"]);
             Entry (Some ["alt"]) None None None;
             Entry (Some ["id"]) (Some ["tall"]) (Some [("img", 2); ("a", 0)]) None ] in
  getBlockContentSchema h
    [Transform (Some [("figure", 1)]); Transform None;
     Transform (Some [("figure", 3); ("img", 0)])]
  = ([ Entry (Some ["src"]) None None None;
       Entry (Some ["id"]) (Some ["wide"]) (Some [("img", 2); ("a", 0)])
             (Some ["img"]);
       Entry (Some ["alt"]) None None None;
       Entry (Some ["id"]) (Some ["tall"]) (Some [("img", 2); ("a", 0)]) None ],
     [("figure", 1); ("img", 0)]).
Proof. vm_compute. reflexivity. Qed.

(** Array indices come first, in ascending order; a numeral with a
    leading zero is an ordinary key. *)
Example key_order_sample :
  spread [("p", 0)] [("3", 1); ("a", 2); ("10", 3); ("p", 4); ("07", 5)]
  = [("3", 1); ("10", 3); ("p", 4); ("a", 2); ("07", 5)].
Proof. vm_compute. reflexivity. Qed.

(** A tag that every object inherits: the accumulator stays empty, the
    store is untouched, and the lists end up on the host's object. *)
Example inherited_tag_sample :
  getBlockContentSchema_in [] figure_store
    [Transform (Some [("constructor", 1)])]
  = (([("constructor",
        Entry (Some ["id"]) None (Some [("img", 0)]) (Some ["img"]));
       ("constructor",
        Entry (Some ["id"]) None (Some [("img", 0)]) None);
       ("constructor", Entry None None (Some [("img", 0)]) None)],
      figure_store), []).
Proof. vm_compute. reflexivity. Qed.





Lemma own_not_key (s : schema) tag : tag ∉ keys s -> own s tag = None.
Proof.
  induction s as [|[k l] s IH]; [done|]. cbn [keys map fst own].
  intros Hn. destruct (String.eqb_spec k tag) as [->|].
  - exfalso. apply Hn. left.
  - apply IH. intros Hin. apply Hn. by right.
Qed.










(** A new tag goes into the accumulator. *)
Lemma merge_tag_new (g : host) (h : heap) accu tag ls :
  own accu tag = None ->
  includes Object_prototype tag = false ->
  merge_tag ((g, h), accu) (tag, ls) = ((g, h), set_prop accu tag ls).
Proof. intros Ho Hi. unfold merge_tag, lookup_prop. by rewrite Ho, Hi. Qed.


Lemma getBlockContentSchema_props g h transforms :
  getBlockContentSchema_in g h transforms =
  fold_left merge_tag (all_props transforms) ((g, h), []).
Proof.
  unfold getBlockContentSchema_in, all_props.
  generalize ((g, h), @nil (string * loc)).
  induction transforms as [|t ts IH]; intros st; simpl; [done|].
  by rewrite fold_left_app, IH.
Qed.


















(** ** The filter engine and the embedded content reducer *)

Example promotion_anchor :
  deepFilterHTML 8 "<p><a href='#'><img class='one'></a><strong>test</strong></p>"
    [embeddedContentReducer] figure_img_store (Some figure_img_schema)
  = Some (Ok ("<figure><a href=" +:+ dq +:+ "#" +:+ dq +:+ "><img class="
              +:+ dq +:+ "one" +:+ dq
              +:+ "></a></figure><p><strong>test</strong></p>")).
Proof. vm_compute. reflexivity. Qed.


Example promotion_multiple :
  deepFilterHTML 8
    "<p><a href='#'><img class='one'></a><img class='two'><strong>test</strong></p>"
    [embeddedContentReducer] figure_img_store (Some figure_img_schema)
  = Some (Ok ("<figure><a href=" +:+ dq +:+ "#" +:+ dq +:+ "><img class="
              +:+ dq +:+ "one" +:+ dq +:+ "></a></figure><figure><img class="
              +:+ dq +:+ "two" +:+ dq
              +:+ "></figure><p><strong>test</strong></p>")).
Proof. vm_compute. reflexivity. Qed.

Lemma deepFilterNodeList_nil fuel filters h sch d :
  deepFilterNodeList (S fuel) filters h sch [] d = Some (Ok d).
Proof. reflexivity. Qed.

Lemma deepFilterNodeList_cons fuel filters h sch node nodes d :
  deepFilterNodeList (S fuel) filters h sch (node :: nodes) d =
  match deepFilterNodeList fuel filters h sch (childNodes d node) d with
  | Some (Ok d1) =>
      match apply_filters filters h sch node d1 with
      | Ok d2 => deepFilterNodeList (S fuel) filters h sch nodes d2
      | Throw e => Some (Throw e)
      end
  | Some (Throw e) => Some (Throw e)
  | None => None
  end.
Proof. reflexivity. Qed.

(** More fuel does not change a result. *)
Lemma deepFilterNodeList_more fuel filters h sch :
  forall nodes d r,
    deepFilterNodeList fuel filters h sch nodes d = Some r ->
    deepFilterNodeList (S fuel) filters h sch nodes d = Some r.
Proof.
  induction fuel as [|fuel IH]; intros nodes d r H; [done|].
  revert d H. induction nodes as [|node nodes IHn]; intros d H.
  - by rewrite deepFilterNodeList_nil in *.
  - rewrite deepFilterNodeList_cons in H. rewrite deepFilterNodeList_cons.
    destruct (deepFilterNodeList fuel filters h sch (childNodes d node) d)
      as [r1|] eqn:E; [|done].
    rewrite (IH _ _ _ E). destruct r1 as [d1|e]; [|done].
    destruct (apply_filters filters h sch node d1) as [d2|e]; [|done].
    by apply IHn.
Qed.

Lemma deepFilterNodeList_enough fuel fuel' filters h sch nodes d r :
  fuel <= fuel' ->
  deepFilterNodeList fuel filters h sch nodes d = Some r ->
  deepFilterNodeList fuel' filters h sch nodes d = Some r.
Proof.
  induction 1 as [|fuel' _ IH]; [done|].
  intros H. by apply deepFilterNodeList_more, IH.
Qed.

(** C7.  With the schema [{ figure: { children: { img: {} } } }],
    [deepFilterHTML] with the embedded content reducer turns the paragraph
    with two images into two figures, in the order of the images,
    followed by the paragraph without the images; fuel 4 is enough. *)
Theorem promotion_literal (fuel : nat) :
  4 <= fuel ->
  deepFilterHTML fuel
    ("<p><strong>test<img class=" +:+ dq +:+ "one" +:+ dq
     +:+ "></strong><img class=" +:+ dq +:+ "two" +:+ dq +:+ "></p>")
    [embeddedContentReducer] figure_img_store (Some figure_img_schema)
  = Some (Ok ("<figure><img class=" +:+ dq +:+ "one" +:+ dq
              +:+ "></figure><figure><img class=" +:+ dq +:+ "two" +:+ dq
              +:+ "></figure><p><strong>test</strong></p>")).
Proof.
  intros Hfuel. unfold deepFilterHTML.
  destruct (parseHTML _) as [body|] eqn:Hp; [|by vm_compute in Hp].
  vm_compute in Hp. injection Hp as <-.
  set (doc := createHTMLDocument _).
  set (nodes := childNodes doc body_id).
  destruct (deepFilterNodeList 4 [embeddedContentReducer] figure_img_store
              (Some figure_img_schema) nodes doc) as [r|] eqn:H4;
    [|by vm_compute in H4].
  rewrite (deepFilterNodeList_enough 4 fuel _ _ _ _ _ r Hfuel H4).
  vm_compute in H4. injection H4 as <-. vm_compute. reflexivity.
Qed.

Lemma promotion_literal_witness :
  deepFilterHTML 4
    ("<p><strong>test<img class=" +:+ dq +:+ "one" +:+ dq
     +:+ "></strong><img class=" +:+ dq +:+ "two" +:+ dq +:+ "></p>")
    [embeddedContentReducer] figure_img_store (Some figure_img_schema)
  = Some (Ok ("<figure><img class=" +:+ dq +:+ "one" +:+ dq
              +:+ "></figure><figure><img class=" +:+ dq +:+ "two" +:+ dq
              +:+ "></figure><p><strong>test</strong></p>")).
Proof. apply (promotion_literal 4). lia. Defined.

Lemma apply_filters_detached filters h sch node d :
  contains d node = false -> apply_filters filters h sch node d = Ok d.
Proof.
  intros Hc. induction filters as [|item rest IH]; [done|].
  simpl. by rewrite Hc.
Qed.

Lemma apply_filters_agree fs fs' h sch node d :
  Forall2 agree_when_attached fs fs' ->
  apply_filters fs h sch node d = apply_filters fs' h sch node d.
Proof.
  intros Hf. revert d. induction Hf as [|f f' fs fs' Hff _ IH]; intros d; [done|].
  simpl. destruct (contains d node) eqn:Hc.
  - rewrite (Hff node d h sch Hc).
    destruct (f' node d h sch) as [d'|e]; simpl; [apply IH|done].
  - simpl. apply IH.
Qed.

(** C8.  The engine calls a filter on a node only while the node is in
    the document: what it computes does not depend on what the filters
    would do to a node outside the document, and for a node that is
    outside the document when its turn comes, every filter is skipped and
    the document is left as it is. *)
Theorem filters_only_on_attached
    (fuel : nat) (fs fs' : list filter) (h : heap) (sch : option schema)
    (nodes : list nat) (d : document) (node : nat) :
  Forall2 agree_when_attached fs fs' ->
  deepFilterNodeList fuel fs h sch nodes d
  = deepFilterNodeList fuel fs' h sch nodes d
  /\ (contains d node = false -> apply_filters fs h sch node d = Ok d).
Proof.
  intros Hf. split; [|apply apply_filters_detached].
  revert nodes d. induction fuel as [|fuel IH]; intros nodes d; [done|].
  revert d. induction nodes as [|n nodes IHn]; intros d; [done|].
  rewrite !deepFilterNodeList_cons, IH.
  destruct (deepFilterNodeList fuel fs' h sch (childNodes d n) d)
    as [[d1|e]|]; try done.
  rewrite (apply_filters_agree fs fs' h sch n d1 Hf).
  destruct (apply_filters fs' h sch n d1) as [d2|e]; [apply IHn|done].
Qed.

Lemma filters_only_on_attached_witness :
  let doc := createHTMLDocument
               [Element "p" [] [Element "img" [("class", "one")] []]] in
  deepFilterNodeList 3 [embeddedContentReducer] figure_img_store
                     (Some figure_img_schema) (childNodes doc body_id) doc
  = deepFilterNodeList 3 [attached_only embeddedContentReducer]
                       figure_img_store (Some figure_img_schema)
                       (childNodes doc body_id) doc.
Proof.
  apply (filters_only_on_attached 3 [embeddedContentReducer]
           [attached_only embeddedContentReducer] figure_img_store
           (Some figure_img_schema) _ _ 0).
  constructor; [|constructor].
  intros node d h sch Hc. unfold attached_only. by rewrite Hc.
Defined.


(** ** The orchestrator *)

Example strip_meta_sample :
  strip_meta "a<meta><meta charset='utf-8'><b>x</b><meta x>" = "a<meta><b>x</b><meta x>".
Proof. reflexivity. Qed.

Example isPlain_samples :
  isPlain "line one<br>line two" = Some true
  /\ isPlain "<strong>x</strong>" = Some false.
Proof. vm_compute. done. Qed.

(** C10.  The empty string is inline content for every context tag, and
    [rawHandler] in mode [AUTO] returns a string, the empty one, whenever
    the HTML it comes to classify is empty (the input less its [meta] tag
    is empty and there is no plain text, or the plain text converts to
    the empty string) and the shortcode converter finds no shortcode in
    the empty string. *)
Theorem empty_is_inline
    (B : Type) (parseWithGrammar : string -> list B)
    (convertMarkdown : string -> string)
    (shortcodeConverter : string -> list (string + B))
    (phrasingContentReducer : filter)
    (blockMode : list (string + B) -> bool -> result (list B))
    (querySelector : string -> node -> result bool)
    (fuel : nat) (HTML plainText : string)
    (tagName : option string) (canUserUseUnfilteredHTML : bool) :
  isInlineContent EmptyString tagName = Some true
  /\ (strip_meta HTML = EmptyString ->
      (if nonempty plainText then convertMarkdown plainText else EmptyString)
      = EmptyString ->
      length (shortcodeConverter EmptyString) <= 1 ->
      rawHandler B parseWithGrammar convertMarkdown shortcodeConverter
        phrasingContentReducer blockMode querySelector (S fuel)
        HTML plainText "AUTO" tagName canUserUseUnfilteredHTML
      = Some (Ok (InlineString EmptyString))).
Proof.
  split; [reflexivity|]. intros Hmeta Hmd Hpieces.
  assert (Hno : Nat.ltb 1 (length (shortcodeConverter EmptyString)) = false)
    by (apply Nat.ltb_ge; lia).
  unfold rawHandler. rewrite Hmeta.
  destruct (nonempty plainText); cbn [nonempty negb andb]; cbv zeta;
    rewrite ?Hmd, ?andb_false_r; cbn [has_substring is_prefix orb andb];
    rewrite ?andb_false_r;
    change (String.eqb "AUTO" "INLINE") with false; cbv iota;
    rewrite Hno; reflexivity.
Qed.

Lemma empty_is_inline_witness :
  rawHandler nat (fun _ => []) (fun s => s) (fun s => [inl s])
    (fun _ d _ _ => Ok d) (fun _ _ => Ok []) type_selectors 1
    "<meta charset='utf-8'>" EmptyString "AUTO" None false
  = Some (Ok (InlineString EmptyString)).
Proof.
  apply (empty_is_inline nat (fun _ => []) (fun s => s) (fun s => [inl s])
           (fun _ d _ _ => Ok d) (fun _ _ => Ok []) type_selectors 0
           "<meta charset='utf-8'>" EmptyString None false).
  - reflexivity.
  - reflexivity.
  - simpl. lia.
Defined.


(* ================================================================== *)
(** * Part III: further properties of the code                         *)
(* ================================================================== *)

(** ** The sanitizer *)

(** Whatever [removeInvalidHTML] returns is made of nodes the schema
    allows: every node has an entry at its level (in inline mode, or is a
    bare line break), every element carries only [class] and listed
    attributes and only listed classes, and child nodes stand only under
    entries with [children]. *)
Theorem sanitizer_output_allowed
    (querySelector : string -> node -> result bool) (h : heap)
    (sch : schema) (inline : bool) (nodes out : list node) :
  cleanNodeList querySelector h sch inline nodes = Ok out ->
  forallb (sanitized inline h sch) out = true.
Proof.
  revert out. induction nodes as [|x l IH]; intros out Hc.
  - by injection Hc as <-.
  - rewrite cleanNodeList_cons in Hc.
    apply bind_Ok in Hc as (r1 & H1 & Hc).
    apply bind_Ok in Hc as (r2 & H2 & Hc).
    injection Hc as <-.
    rewrite forallb_app, (cleaned_sanitized _ _ _ _ _ _ _ H1). cbn [andb].
    by apply IH.
Qed.

Lemma sanitizer_output_allowed_witness :
  forallb
    (sanitized false
       [Entry (Some ["id"]) (Some ["wide"]) (Some [("3", 1)]) None; empty_entry]
       [("p", 0)])
    [Element "p" [("id", "x"); ("class", "wide")] [Text "one"; Text "two"]]
  = true.
Proof.
  apply (sanitizer_output_allowed type_selectors _ _ false
           [Element "div" []
              [Element "p" [("id", "x"); ("style", "y"); ("class", "a wide")]
                 [Text "one"; Element "i" [] [Text "two"]];
               Text "three"]]).
  vm_compute. reflexivity.
Defined.


(** The sanitizer neither invents nor reorders text: the text nodes of
    what it returns are, in document order, a sublist of the text nodes
    of its input, in block mode and in inline mode. *)
Theorem sanitizer_keeps_text_order
    (querySelector : string -> node -> result bool) (h : heap)
    (sch : schema) (inline : bool) (nodes out : list node) :
  cleanNodeList querySelector h sch inline nodes = Ok out ->
  sublist (flat_map texts out) (flat_map texts nodes).
Proof.
  revert out. induction nodes as [|x l IH]; intros out Hc.
  - by injection Hc as <-.
  - rewrite cleanNodeList_cons in Hc.
    apply bind_Ok in Hc as (r1 & H1 & Hc).
    apply bind_Ok in Hc as (r2 & H2 & Hc).
    injection Hc as <-. rewrite flat_map_app. cbn [flat_map].
    apply sublist_app; [by eapply cleaned_texts|by apply IH].
Qed.

Lemma sanitizer_keeps_text_order_witness :
  sublist ["one"; "two"] ["one"; "two"; "three"].
Proof.
  apply (sanitizer_keeps_text_order type_selectors
           [Entry None None (Some [("3", 1)]) None; empty_entry]
           [("p", 0)] false
           [Element "div" []
              [Element "p" [] [Text "one"; Element "i" [] [Text "two"]];
               Text "three"]]
           [Element "p" [] [Text "one"; Text "two"]]).
  vm_compute. reflexivity.
Defined.

(** *** The phrasing schema and the missing [removeNode] *)

Lemma phrasing_entry_fresh tag :
  let '(h, s) := getPhrasingContentSchema [] in
  hasOwnProperty s (type_key ELEMENT_NODE) = false
  /\ match get_entry h s tag with
     | Some e =>
         hasOwnProperty s tag = true
         /\ require e = None
         /\ children e =
            (if includes nesting_tags tag then Some (omit s tag) else None)
         /\ includes nesting_tags tag
            || includes ["br"; type_key TEXT_NODE] tag = true
     | None => hasOwnProperty s tag = false
     end.
Proof.
  set (r := getPhrasingContentSchema []). vm_compute in r. subst r.
  cbv beta iota. split; [reflexivity|].
  unfold get_entry, hasOwnProperty, includes, nesting_tags.
  change (type_key TEXT_NODE) with "3".
  cbn [own existsb].
  repeat match goal with
  | |- context [String.eqb ?k tag] =>
      destruct (String.eqb_spec k tag) as [<-|?]; [vm_compute; done|]
  end.
  reflexivity.
Qed.

Lemma phrasing_entry (h0 : heap) (prev : option string) (tag : string) :
  let h := (getPhrasingContentSchema h0).1 in
  let s := (getPhrasingContentSchema h0).2 in
  let c := match prev with Some t => omit s t | None => s end in
  hasOwnProperty c (type_key ELEMENT_NODE) = false
  /\ match get_entry h c tag with
     | Some e =>
         hasOwnProperty c tag = true
         /\ require e = None
         /\ children e =
            (if includes nesting_tags tag then Some (omit s tag) else None)
         /\ includes nesting_tags tag
            || includes ["br"; type_key TEXT_NODE] tag = true
     | None => hasOwnProperty c tag = false
     end.
Proof.
  cbv zeta. rewrite getPhrasingContentSchema_shift.
  pose proof (phrasing_entry_fresh tag) as Hf.
  destruct (getPhrasingContentSchema []) as [es0 s0]. cbn [fst snd].
  destruct Hf as [Hone Hf].
  set (b := length h0).
  assert (Hown : forall k, hasOwnProperty (shift b s0) k = hasOwnProperty s0 k).
  { intros k. unfold hasOwnProperty. rewrite own_shift.
    by destruct (own s0 k). }
  assert (Htop : hasOwnProperty (shift b s0) (type_key ELEMENT_NODE) = false
          /\ match get_entry (h0 ++ map (shift_entry b) es0) (shift b s0) tag with
             | Some e =>
                 hasOwnProperty (shift b s0) tag = true
                 /\ require e = None
                 /\ children e =
                    (if includes nesting_tags tag
                     then Some (omit (shift b s0) tag) else None)
                 /\ includes nesting_tags tag
                    || includes ["br"; type_key TEXT_NODE] tag = true
             | None => hasOwnProperty (shift b s0) tag = false
             end).
  { split; [by rewrite Hown|]. subst b. rewrite get_entry_shift.
    destruct (get_entry es0 s0 tag) as [e|];
      cbn [fmap option_fmap option_map].
    - destruct Hf as (H1 & H2 & H3 & H4). rewrite Hown.
      unfold shift_entry. cbn [require children].
      split_and!; try done.
      rewrite H3, omit_shift. by destruct (includes nesting_tags tag).
    - by rewrite Hown. }
  destruct prev as [t|]; [|done].
  destruct Htop as [Hone' Htop].
  assert (Hoo : forall k, hasOwnProperty (omit (shift b s0) t) k =
            if String.eqb t k then false else hasOwnProperty (shift b s0) k).
  { intros k. unfold hasOwnProperty. rewrite own_omit.
    by destruct (String.eqb t k). }
  split.
  - rewrite Hoo, Hone'. by destruct (String.eqb t _).
  - unfold get_entry in *. rewrite own_omit, Hoo.
    destruct (String.eqb t tag); [done|]. exact Htop.
Qed.

Lemma childless_voids_element name attrs kids :
  childless_voids (Element name attrs kids) =
  (if includes ["br"; type_key TEXT_NODE] (toLowerCase (toUpperCase name))
   then match kids with [] => true | _ :: _ => false end
   else true)
  && forallb childless_voids kids.
Proof. reflexivity. Qed.

Section PhrasingSanitizer.

Variable querySelector : string -> node -> result bool.
Variable h0 : heap.

Lemma phrasing_clean_total n :
  childless_voids n = true ->
  forall prev inline following,
    exists r,
      cleanNode querySelector (getPhrasingContentSchema h0).1
        (match prev with
         | Some t => omit (getPhrasingContentSchema h0).2 t
         | None => (getPhrasingContentSchema h0).2
         end) inline following n = Ok r.
Proof.
  induction n as [name attrs kids IH|d|d] using node_ind_nested;
    intros Hch prev inline following.
  - rewrite childless_voids_element in Hch.
    apply andb_true_iff in Hch as [Hvoid Hkids].
    assert (Hlist : forall prev,
              exists r,
                cleanNodeList querySelector (getPhrasingContentSchema h0).1
                  (match prev with
                   | Some t => omit (getPhrasingContentSchema h0).2 t
                   | None => (getPhrasingContentSchema h0).2
                   end) inline kids = Ok r).
    { clear Hvoid. induction kids as [|x l IHl]; intros prev'.
      - by exists [].
      - cbn [forallb] in Hkids. apply andb_true_iff in Hkids as [Hx Hl].
        inversion IH as [|? ? HPx HPl]; subst.
        destruct (HPx Hx prev' inline l) as [r1 H1].
        destruct (IHl HPl Hl prev') as [r2 H2].
        exists (r1 ++ r2). rewrite cleanNodeList_cons, H1. cbn [bind].
        by rewrite H2. }
    pose proof (phrasing_entry h0 prev (toLowerCase (toUpperCase name)))
      as [Hone Hent].
    cbv zeta in Hone, Hent.
    set (c := match prev with
              | Some t => omit (getPhrasingContentSchema h0).2 t
              | None => (getPhrasingContentSchema h0).2
              end) in *.
    destruct (get_entry (getPhrasingContentSchema h0).1 c
                (toLowerCase (toUpperCase name))) as [e|] eqn:He.
    + destruct Hent as (Hv & Hreq & Hchild & Hkind).
      rewrite cleanNode_valid_element by (by rewrite Hv).
      rewrite He. destruct (isEmpty _ && _); [by eexists|].
      cbv zeta. destruct kids as [|k0 kids']; [by eexists|].
      rewrite Hchild.
      destruct (includes nesting_tags (toLowerCase (toUpperCase name)))
        eqn:Hn.
      * rewrite Hreq. cbn [default from_option id bind].
        destruct (Hlist (Some (toLowerCase (toUpperCase name)))) as [r Hr].
        rewrite Hr. by eexists.
      * cbn [orb] in Hkind. by rewrite Hkind in Hvoid.
    + rewrite cleanNode_invalid
        by (cbn [nodeName nodeType]; by rewrite Hent, Hone).
      destruct (Hlist prev) as [r Hr]. cbn [childNodes_of].
      fold c in Hr. rewrite Hr. by eexists.
  - cbn [cleanNode nodeName nodeType].
    destruct (hasOwnProperty _ _ || hasOwnProperty _ _); by eexists.
  - cbn [cleanNode nodeName nodeType].
    destruct (hasOwnProperty _ _ || hasOwnProperty _ _); by eexists.
Qed.

End PhrasingSanitizer.

(** Under the phrasing content schema the sanitizer always returns: as
    long as no element that the schema lists without [children] has child
    nodes, the branch that calls [removeNode] is not reached, in block
    mode and in inline mode, whatever the selector engine does. *)
Theorem phrasing_sanitizer_returns
    (querySelector : string -> node -> result bool) (h0 : heap)
    (inline : bool) (nodes : list node) :
  forallb childless_voids nodes = true ->
  exists out,
    cleanNodeList querySelector (getPhrasingContentSchema h0).1
      (getPhrasingContentSchema h0).2 inline nodes = Ok out.
Proof.
  induction nodes as [|x l IH]; intros Hch.
  - by exists [].
  - cbn [forallb] in Hch. apply andb_true_iff in Hch as [Hx Hl].
    destruct (phrasing_clean_total querySelector h0 x Hx None inline l)
      as [r1 H1].
    destruct (IH Hl) as [r2 H2].
    exists (r1 ++ r2). rewrite cleanNodeList_cons, H1. cbn [bind].
    by rewrite H2.
Qed.

Lemma phrasing_sanitizer_returns_witness :
  exists out,
    cleanNodeList (fun _ _ => Throw SyntaxError)
      (getPhrasingContentSchema []).1 (getPhrasingContentSchema []).2 true
      [Element "div" [] [Element "a" [("href", "#")] [Element "br" [] []]];
       Element "p" [] [Text "x"]] = Ok out.
Proof.
  apply (phrasing_sanitizer_returns (fun _ _ => Throw SyntaxError) [] true).
  reflexivity.
Defined.


(** ** The classifiers *)

Lemma children_with_previous_no_element prev body :
  forallb (fun n => negb (is_element n)) body = true ->
  children_with_previous prev body = [].
Proof.
  revert prev. induction body as [|n l IH]; intros prev; [done|].
  cbn [forallb children_with_previous].
  intros [Hn Hl]%andb_true_iff. apply negb_true_iff in Hn. rewrite Hn.
  by apply IH.
Qed.

(** A body without elements, text and comments only, is inline content
    for every context tag. *)
Theorem element_free_is_inline
    (HTML : string) (body : list node) (tagName : option string) :
  parseHTML HTML = Some body ->
  forallb (fun n => negb (is_element n)) body = true ->
  isInlineContent HTML tagName = Some true.
Proof.
  intros Hp Hb. unfold isInlineContent, isInlineContentOf. rewrite Hp.
  by rewrite (children_with_previous_no_element None body Hb).
Qed.

Lemma element_free_is_inline_witness :
  isInlineContent "just > text" (Some "h2") = Some true.
Proof.
  apply (element_free_is_inline "just > text" [Text "just > text"]);
    reflexivity.
Defined.

Lemma deepCheck_node_element tagName name attrs kids :
  deepCheck_node tagName (Element name attrs kids) =
  isInline (Element name attrs kids) tagName
  && forallb (fun k => if is_element k then deepCheck_node tagName k else true)
             kids.
Proof. reflexivity. Qed.

Lemma isInline_widens n tagName :
  isInline n None = true -> isInline n tagName = true.
Proof.
  unfold isInline. cbn [isInlineForTag falsy orb].
  rewrite orb_false_r. by intros ->.
Qed.

Lemma deepCheck_node_widens tagName n :
  deepCheck_node None n = true -> deepCheck_node tagName n = true.
Proof.
  induction n as [name attrs kids IH|d|d] using node_ind_nested.
  - rewrite !deepCheck_node_element.
    intros [Hi Hk]%andb_true_iff. rewrite (isInline_widens _ _ Hi).
    cbn [andb]. clear Hi. induction kids as [|k l IHl]; [done|].
    cbn [forallb] in *. apply andb_true_iff in Hk as [Hk Hl].
    inversion IH as [|? ? HPk HPl]; subst.
    rewrite (IHl HPl Hl), andb_true_r.
    destruct (is_element k); [by apply HPk|done].
  - cbn [deepCheck_node]. rewrite !andb_true_r. apply isInline_widens.
  - cbn [deepCheck_node]. rewrite !andb_true_r. apply isInline_widens.
Qed.

(** The context tag only widens what counts as inline: content that is
    inline without a context tag is inline for every context tag. *)
Theorem context_tag_widens (body : list node) (tagName : option string) :
  isInlineContentOf body None = true ->
  isInlineContentOf body tagName = true.
Proof.
  unfold isInlineContentOf.
  intros [Hbr Hd]%andb_true_iff. rewrite Hbr. cbn [andb].
  unfold deepCheck in *. revert Hd.
  generalize (map snd (children_with_previous None body)).
  intros l. induction l as [|n l IH]; [done|]. cbn [forallb].
  intros [Hn Hl]%andb_true_iff.
  by rewrite (deepCheck_node_widens tagName n Hn), IH.
Qed.

Lemma context_tag_widens_witness :
  isInlineContentOf [Element "strong" [] [Text "a"]; Text "b"] (Some "li")
  = true.
Proof.
  apply (context_tag_widens [Element "strong" [] [Text "a"]; Text "b"]).
  reflexivity.
Defined.

Lemma isInlineForTag_outside nm t :
  existsb (fun tagGroup => includes tagGroup t) inlineWhitelistTagGroups
  = false ->
  isInlineForTag nm (Some t) = false.
Proof.
  unfold isInlineForTag. intros Ht.
  destruct (falsy (Some t) || falsy (Some nm)); [done|].
  revert Ht. induction inlineWhitelistTagGroups as [|g gs IH]; [done|].
  cbn [existsb]. intros [Hg Hgs]%orb_false_iff.
  by rewrite Hg, andb_false_r, IH.
Qed.

Lemma deepCheck_node_outside t n :
  existsb (fun tagGroup => includes tagGroup t) inlineWhitelistTagGroups
  = false ->
  deepCheck_node (Some t) n = deepCheck_node None n.
Proof.
  intros Ht.
  assert (Hi : forall m, isInline m (Some t) = isInline m None).
  { intros m. unfold isInline. rewrite (isInlineForTag_outside _ t Ht).
    by cbn [isInlineForTag falsy orb]. }
  induction n as [name attrs kids IH|d|d] using node_ind_nested.
  - rewrite !deepCheck_node_element, Hi. f_equal.
    induction kids as [|k l IHl]; [done|]. cbn [forallb].
    inversion IH as [|? ? HPk HPl]; subst.
    by rewrite (IHl HPl), HPk.
  - cbn [deepCheck_node]. by rewrite Hi.
  - cbn [deepCheck_node]. by rewrite Hi.
Qed.

(** A context tag that is in none of the tag groups (a paragraph, say)
    classifies as no context tag does. *)
Theorem context_tag_outside_groups (body : list node) (t : string) :
  existsb (fun tagGroup => includes tagGroup t) inlineWhitelistTagGroups
  = false ->
  isInlineContentOf body (Some t) = isInlineContentOf body None.
Proof.
  intros Ht. unfold isInlineContentOf, deepCheck. f_equal.
  generalize (map snd (children_with_previous None body)).
  intros l. induction l as [|n l IH]; [done|]. cbn [forallb].
  by rewrite (deepCheck_node_outside t n Ht), IH.
Qed.

Lemma context_tag_outside_groups_witness :
  isInlineContentOf [Element "li" [] [Text "a"]] (Some "p")
  = isInlineContentOf [Element "li" [] [Text "a"]] None.
Proof.
  apply (context_tag_outside_groups [Element "li" [] [Text "a"]] "p").
  reflexivity.
Defined.

(** *** isPlain *)

Lemma merge_text_elements l :
  existsb is_element (merge_text l) = existsb is_element l.
Proof.
  induction l as [|n l IH]; [done|].
  destruct n as [name attrs kids|a|c]; cbn [merge_text existsb is_element].
  - by rewrite IH.
  - rewrite <- IH. destruct (merge_text l) as [|[| |] rest]; try done;
      by destruct (nonempty a).
  - by rewrite IH.
Qed.

(** Markup with any element other than a line break at its top level is
    not plain. *)
Theorem formatted_is_not_plain (HTML : string) (body : list node) :
  parseHTML HTML = Some body ->
  existsb (fun n => is_element n && negb (is_br n)) body = true ->
  isPlain HTML = Some false.
Proof.
  intros Hp Hb. unfold isPlain. rewrite Hp. f_equal.
  assert (He : existsb is_element (normalize (map replace_br body)) = true).
  { unfold normalize. rewrite merge_text_elements.
    clear Hp. induction body as [|n l IH]; [done|].
    cbn [existsb map] in *. apply orb_true_iff in Hb as [Hn|Hl].
    - destruct n as [name attrs kids| |]; try done.
      cbn [is_element is_br andb] in Hn. apply negb_true_iff in Hn.
      cbn [replace_br]. by rewrite Hn.
    - by rewrite (IH Hl), orb_true_r. }
  destruct (normalize (map replace_br body)) as [|[| |] [|]]; done.
Qed.

Lemma formatted_is_not_plain_witness :
  isPlain "a<br><em>b</em>" = Some false.
Proof.
  apply (formatted_is_not_plain "a<br><em>b</em>"
           [Text "a"; Element "br" [] []; Element "em" [] [Text "b"]]);
    reflexivity.
Defined.


Lemma merge_text_all_text (ds : list string) :
  merge_text (map Text ds) =
  if nonempty (String.concat EmptyString ds)
  then [Text (String.concat EmptyString ds)]
  else [].
Proof.
  induction ds as [|a ds IH]; [done|].
  cbn [map merge_text]. rewrite IH.
  assert (Hc : String.concat EmptyString (a :: ds)
               = a +:+ String.concat EmptyString ds).
  { destruct ds; [cbn [String.concat]; by rewrite append_empty_r|done]. }
  rewrite Hc, nonempty_append.
  destruct (nonempty (String.concat EmptyString ds)) eqn:En.
  - by rewrite orb_true_r.
  - rewrite orb_false_r.
    assert (String.concat EmptyString ds = EmptyString) as ->
      by (by destruct (String.concat EmptyString ds)).
    by rewrite append_empty_r.
Qed.

(** Markup that is only text and line breaks is plain exactly when it is
    not empty; the empty string is not plain. *)
Theorem text_and_breaks_plain (HTML : string) (body : list node) :
  parseHTML HTML = Some body ->
  forallb (fun n => is_text n || is_br n) body = true ->
  isPlain HTML = Some (nonempty (plain_text body)).
Proof.
  intros Hp Hb. unfold isPlain. rewrite Hp. f_equal.
  assert (Hm : map normalize_node (map replace_br body)
               = map Text (map (fun n => match n with
                                          | Text data => data
                                          | _ => line_feed
                                          end) body)).
  { clear Hp. induction body as [|n l IH]; [done|].
    cbn [forallb] in Hb. apply andb_true_iff in Hb as [Hn Hl].
    cbn [map]. rewrite (IH Hl). f_equal.
    destruct n as [name attrs kids|d|d]; try done.
    cbn [is_text is_br orb] in Hn. cbn [replace_br]. by rewrite Hn. }
  unfold normalize, plain_text. rewrite Hm, merge_text_all_text.
  by destruct (nonempty _).
Qed.

Lemma text_and_breaks_plain_witness :
  isPlain "line one<br>line two" = Some true /\ isPlain EmptyString = Some false.
Proof.
  split.
  - apply (text_and_breaks_plain "line one<br>line two"
             [Text "line one"; Element "br" [] []; Text "line two"]);
      reflexivity.
  - apply (text_and_breaks_plain EmptyString []); reflexivity.
Defined.

(** *** isEmpty *)

Lemma isEmpty_element name attrs kids :
  isEmpty (Element name attrs kids) =
  forallb
    (fun k =>
       match k with
       | Text data => trims_to_empty data
       | Element _ attrs' _ =>
           if String.eqb (nodeName k) "BR" then true
           else match attrs' with
                | _ :: _ => false
                | [] => isEmpty k
                end
       | Comment _ => true
       end) kids.
Proof. reflexivity. Qed.

Lemma empty_texts n :
  isEmpty n = true -> childless_voids n = true -> is_element n = true ->
  forallb trims_to_empty (texts n) = true.
Proof.
  induction n as [name attrs kids IH|d|d] using node_ind_nested; [|done..].
  rewrite isEmpty_element, childless_voids_element, texts_element.
  intros He [_ Hc]%andb_true_iff _.
  induction kids as [|k l IHl]; [done|].
  cbn [forallb flat_map] in *.
  apply andb_true_iff in He as [Hk Hl].
  apply andb_true_iff in Hc as [Hck Hcl].
  inversion IH as [|? ? HPk HPl]; subst.
  rewrite forallb_app, (IHl HPl Hl Hcl), andb_true_r.
  destruct k as [kname kattrs kkids|data|data]; [|by cbn; rewrite Hk|done].
  cbn [nodeName] in Hk.
  destruct (String.eqb (toUpperCase kname) "BR") eqn:Hbr.
  - apply String.eqb_eq in Hbr.
    rewrite childless_voids_element, Hbr in Hck.
    change (includes ["br"; type_key TEXT_NODE] (toLowerCase "BR")) with true
      in Hck.
    destruct kkids; [done|]. discriminate Hck.
  - destruct kattrs; [|done]. by apply HPk.
Qed.

(** An element that [isEmpty] calls empty has no text but white space
    below it, so the sanitizer loses no visible text when it removes an
    empty element (given that line-break elements have no child nodes). *)
Theorem empty_element_has_no_visible_text
    (name : string) (attrs : list (string * string)) (kids : list node) :
  isEmpty (Element name attrs kids) = true ->
  childless_voids (Element name attrs kids) = true ->
  forallb trims_to_empty (texts (Element name attrs kids)) = true.
Proof. intros He Hc. by apply empty_texts. Qed.

Lemma empty_element_has_no_visible_text_witness :
  forallb trims_to_empty
    (texts (Element "p" [("id", "x")]
              [Text " "; Element "span" [] [Element "br" [] []; Comment "c"]]))
  = true.
Proof.
  apply (empty_element_has_no_visible_text "p" [("id", "x")]
           [Text " "; Element "span" [] [Element "br" [] []; Comment "c"]]);
    reflexivity.
Defined.

(** ** Composition of the block content schema, further *)

Lemma add_key_last s k l : array_index k = None -> add_key s k l = s ++ [(k, l)].
Proof.
  intros Hk. induction s as [|[k0 l0] s IH]; cbn [add_key app]; [done|].
  unfold goes_before. rewrite Hk. by rewrite IH.
Qed.

Lemma add_key_perm s k l : add_key s k l ≡ₚ (k, l) :: s.
Proof.
  induction s as [|[k0 l0] s IH]; cbn [add_key]; [done|].
  destruct (goes_before k k0); [done|].
  rewrite IH. apply perm_swap.
Qed.

Lemma fold_merge_disjoint ps :
  forall (g : host) (h : heap) accu,
    NoDup (keys accu ++ keys ps) ->
    (forall p, p ∈ ps -> includes Object_prototype p.1 = false) ->
    exists accu',
      fold_left merge_tag ps ((g, h), accu) = ((g, h), accu')
      /\ accu' ≡ₚ accu ++ ps
      /\ ((forall p, p ∈ ps -> array_index p.1 = None) -> accu' = accu ++ ps).
Proof.
  induction ps as [|[tag ls] ps IH]; intros g h accu Hnd Hni.
  - exists accu. by rewrite app_nil_r.
  - cbn [fold_left]. cbn [keys map fst] in Hnd.
    assert (tag ∉ keys accu) as Hfresh.
    { apply NoDup_app in Hnd as (_ & Hd & _). intros Hin.
      apply (Hd tag Hin). left. }
    rewrite (merge_tag_new g h accu tag ls (own_not_key accu tag Hfresh))
      by (apply (Hni (tag, ls)); left).
    assert (Hset : set_prop accu tag ls = add_key accu tag ls).
    { unfold set_prop, hasOwnProperty.
      by rewrite (own_not_key accu tag Hfresh). }
    destruct (IH g h (set_prop accu tag ls)) as (accu' & Hf & Hperm & Heq).
    + rewrite Hset. unfold keys. rewrite add_key_perm. cbn [map fst].
      fold (keys accu). fold (keys ps).
      apply NoDup_app in Hnd as (Ha & Hd & Hp).
      apply NoDup_cons in Hp as [Ht Hp].
      apply NoDup_app. split_and!.
      * by apply NoDup_cons.
      * intros x [->|Hx]%elem_of_cons; [done|].
        intros Hin. apply (Hd x Hx). by right.
      * done.
    + intros p Hp. apply Hni. by right.
    + exists accu'. split_and!; [done| |].
      * rewrite Hperm, Hset, add_key_perm. cbn [app].
        apply Permutation_middle.
      * intros Hidx. rewrite Heq by (intros p Hp; apply Hidx; by right).
        rewrite Hset, add_key_last by (apply (Hidx (tag, ls)); left).
        by rewrite <- app_assoc.
Qed.

(** When no tag occurs in two descriptors and none is a property that
    objects inherit, composition only collects: no object is assigned,
    and the composed schema holds the properties of the descriptors with
    the descriptors' own entry objects; they stand in the order of the
    descriptors when no tag is an array index. *)
Theorem composition_of_disjoint_tags (h : heap) (transforms : list transform) :
  NoDup (keys (all_props transforms)) ->
  no_inherited_keys transforms = true ->
  (getBlockContentSchema h transforms).1 = h
  /\ (getBlockContentSchema h transforms).2 ≡ₚ all_props transforms
  /\ (no_index_keys transforms = true ->
      (getBlockContentSchema h transforms).2 = all_props transforms).
Proof.
  intros Hnd Hni. unfold getBlockContentSchema.
  rewrite getBlockContentSchema_props.
  destruct (fold_merge_disjoint (all_props transforms) [] h [])
    as (accu' & Hf & Hperm & Heq); [done| |].
  { intros p Hp. unfold no_inherited_keys in Hni.
    rewrite forallb_forall in Hni.
    apply negb_true_iff, Hni. by apply list_elem_of_In. }
  rewrite Hf. cbn [fst snd]. split_and!; [done|done|].
  intros Hidx. apply Heq. intros p Hp.
  unfold no_index_keys in Hidx. rewrite forallb_forall in Hidx.
  specialize (Hidx p (proj1 (list_elem_of_In _ _) Hp)).
  by apply bool_decide_eq_true in Hidx.
Qed.

Lemma composition_of_disjoint_tags_witness :
  (getBlockContentSchema figure_store
     [figure_with_src; Transform None; Transform (Some [("img", 0); ("p", 2)])]).1
  = figure_store
  /\ (getBlockContentSchema figure_store
        [figure_with_src; Transform None;
         Transform (Some [("img", 0); ("p", 2)])]).2
     = [("figure", 1); ("img", 0); ("p", 2)].
Proof.
  destruct (composition_of_disjoint_tags figure_store
              [figure_with_src; Transform None;
               Transform (Some [("img", 0); ("p", 2)])])
    as (Hs & _ & Ho).
  - apply (bool_decide_unpack _). vm_compute. exact I.
  - reflexivity.
  - split; [exact Hs|]. apply Ho. reflexivity.
Defined.





(** ** The orchestrator, further *)

Lemma no_meta_prefix s :
  has_substring "<meta" s = false -> is_prefix "<meta" s = false.
Proof.
  destruct s; cbn [has_substring]; by intros [? ?]%orb_false_iff.
Qed.

Lemma strip_meta_cons c s :
  strip_meta (String c s) =
  match (if is_prefix "<meta" (String c s)
         then after_meta_attributes false (drop_chars 5 (String c s))
         else None) with
  | Some rest => rest
  | None => String c (strip_meta s)
  end.
Proof. reflexivity. Qed.

Lemma after_meta_attributes_shorter seen s rest :
  after_meta_attributes seen s = Some rest ->
  String.length rest < String.length s.
Proof.
  revert seen. induction s as [|c s IH]; intros seen; [done|].
  cbn [after_meta_attributes String.length].
  destruct (Ascii.eqb c ">").
  - destruct seen; [|done]. intros [= ->]. lia.
  - intros H. apply IH in H. lia.
Qed.

Lemma drop_chars_length n s : String.length (drop_chars n s) <= String.length s.
Proof.
  revert s. induction n as [|n IH]; intros [|c s]; cbn; try lia.
  specialize (IH s). lia.
Qed.

(** Stripping the meta tag leaves a string without [<meta] as it is, and
    never makes a string longer. *)
Theorem strip_meta_edges (s : string) :
  (has_substring "<meta" s = false -> strip_meta s = s)
  /\ String.length (strip_meta s) <= String.length s.
Proof.
  split.
  - induction s as [|c s IH]; [done|]. intros Hno.
    rewrite strip_meta_cons, (no_meta_prefix _ Hno).
    cbn [has_substring] in Hno. apply orb_false_iff in Hno as [_ Hno].
    by rewrite IH.
  - induction s as [|c s IH]; [cbn; lia|].
    rewrite strip_meta_cons.
    destruct (is_prefix "<meta" (String c s)).
    + destruct (after_meta_attributes false (drop_chars 5 (String c s)))
        as [rest|] eqn:Ha.
      * apply after_meta_attributes_shorter in Ha.
        pose proof (drop_chars_length 5 (String c s)). lia.
      * cbn [String.length]. lia.
    + cbn [String.length]. lia.
Qed.

Lemma strip_meta_edges_witness :
  strip_meta "<p>one</p>" = "<p>one</p>".
Proof. apply (strip_meta_edges "<p>one</p>"). reflexivity. Defined.

Section OrchestratorFacts.

Variable B : Type.
Variable parseWithGrammar : string -> list B.
Variable convertMarkdown : string -> string.
Variable shortcodeConverter : string -> list (string + B).
Variable phrasingContentReducer : filter.
Variable blockMode : list (string + B) -> bool -> result (list B).
Variable querySelector : string -> node -> result bool.
Variable fuel : nat.

Lemma inline_outcome_no_blocks (r : option (result string)) :
  match inline_outcome B r with
  | Some (Ok (BlockList _)) => False
  | _ => True
  end.
Proof. by destruct r as [[s|e]|]. Qed.

Lemma rawHandler_inline_mode HTML plainText tagName can :
  rawHandler B parseWithGrammar convertMarkdown shortcodeConverter
    phrasingContentReducer blockMode querySelector fuel
    HTML plainText "INLINE" tagName can
  = match (if nonempty plainText then
             if negb (nonempty (strip_meta HTML)) then Some true
             else isPlain (strip_meta HTML)
           else Some false) with
    | None => None
    | Some markdown =>
        inline_outcome B
          (filterInlineHTML phrasingContentReducer querySelector fuel
             (if markdown then convertMarkdown plainText else strip_meta HTML))
    end.
Proof.
  unfold rawHandler.
  change (String.eqb "INLINE" "INLINE") with true. cbn [negb andb].
  destruct (if nonempty plainText then _ else _) as [markdown|]; [|done].
  cbv zeta.
  change (String.eqb "INLINE" "AUTO") with false.
  rewrite andb_false_r. cbn [andb]. cbv iota.
  change (String.eqb "INLINE" "INLINE") with true. done.
Qed.

End OrchestratorFacts.

(** In mode [INLINE] [rawHandler] never returns blocks, and what it
    returns depends neither on the grammar parser, nor on the pieces the
    shortcode converter returns, nor on the block-mode tail, block
    delimiters in the HTML or not. *)
Theorem inline_mode_never_blocks
    (B : Type) (parseWithGrammar parseWithGrammar' : string -> list B)
    (convertMarkdown : string -> string)
    (shortcodeConverter shortcodeConverter' : string -> list (string + B))
    (phrasingContentReducer : filter)
    (blockMode blockMode' : list (string + B) -> bool -> result (list B))
    (querySelector : string -> node -> result bool)
    (fuel : nat) (HTML plainText : string)
    (tagName : option string) (canUserUseUnfilteredHTML : bool) :
  rawHandler B parseWithGrammar convertMarkdown shortcodeConverter
    phrasingContentReducer blockMode querySelector fuel
    HTML plainText "INLINE" tagName canUserUseUnfilteredHTML
  = rawHandler B parseWithGrammar' convertMarkdown shortcodeConverter'
      phrasingContentReducer blockMode' querySelector fuel
      HTML plainText "INLINE" tagName canUserUseUnfilteredHTML
  /\ match rawHandler B parseWithGrammar convertMarkdown shortcodeConverter
             phrasingContentReducer blockMode querySelector fuel
             HTML plainText "INLINE" tagName canUserUseUnfilteredHTML with
     | Some (Ok (BlockList _)) => False
     | _ => True
     end.
Proof.
  rewrite !rawHandler_inline_mode. split; [done|].
  destruct (if nonempty plainText then _ else _) as [markdown|]; [|done].
  apply inline_outcome_no_blocks.
Qed.

(** In mode [BLOCKS] [rawHandler] never returns a string, and what it
    returns does not depend on the context tag: the inline-content test
    is not consulted. *)
Theorem blocks_mode_never_inline
    (B : Type) (parseWithGrammar : string -> list B)
    (convertMarkdown : string -> string)
    (shortcodeConverter : string -> list (string + B))
    (phrasingContentReducer : filter)
    (blockMode : list (string + B) -> bool -> result (list B))
    (querySelector : string -> node -> result bool)
    (fuel : nat) (HTML plainText : string)
    (tagName tagName' : option string) (canUserUseUnfilteredHTML : bool) :
  rawHandler B parseWithGrammar convertMarkdown shortcodeConverter
    phrasingContentReducer blockMode querySelector fuel
    HTML plainText "BLOCKS" tagName canUserUseUnfilteredHTML
  = rawHandler B parseWithGrammar convertMarkdown shortcodeConverter
      phrasingContentReducer blockMode querySelector fuel
      HTML plainText "BLOCKS" tagName' canUserUseUnfilteredHTML
  /\ match rawHandler B parseWithGrammar convertMarkdown shortcodeConverter
             phrasingContentReducer blockMode querySelector fuel
             HTML plainText "BLOCKS" tagName canUserUseUnfilteredHTML with
     | Some (Ok (InlineString _)) => False
     | _ => True
     end.
Proof.
  unfold rawHandler.
  change (String.eqb "BLOCKS" "INLINE") with false.
  change (String.eqb "BLOCKS" "AUTO") with false.
  cbn [negb andb].
  destruct (has_substring "<!-- wp:" (strip_meta HTML)); [done|].
  destruct (if nonempty plainText then _ else _) as [markdown|]; [|done].
  cbv zeta. rewrite andb_false_r. cbn [andb]. cbv iota.
  change (String.eqb "BLOCKS" "INLINE") with false.
  change (String.eqb "BLOCKS" "AUTO") with false. cbn [andb]. cbv iota.
  split; [done|]. by destruct (blockMode _ _).
Qed.
